(** * listmonk settings handlers (settings.go)

    A shallow embedding of [handleGetSettings] and [handleUpdateSettings]
    together with the part of Go's [encoding/json] (as of Go 1.14) that the
    [settings] struct exercises: decoding a JSON value into the struct, in
    place and member by member, and encoding the struct back.

    JSON text is represented by its syntax tree: lexing, string unquoting and
    printing are the library's and are not modelled. *)

From Stdlib Require Import List String Ascii ZArith NArith Bool Lia.
From Stdlib Require Import Sorting.Sorted Structures.OrderedTypeEx.
Import ListNotations.
Local Open Scope string_scope.
Local Open Scope Z_scope.

Set Implicit Arguments.

(** ** Option monad used by the decoders *)

Definition obind {A B : Type} (o : option A) (k : A -> option B) : option B :=
  match o with
  | Some a => k a
  | None => None
  end.

Notation "x <-? o ;; k" := (obind o (fun x => k))
  (at level 61, o at next level, right associativity).

(** ** JSON syntax trees *)

(** A number literal is either an integer literal (no fraction, no exponent)
    or a literal with a fraction or an exponent, kept as its text. *)
Inductive numlit : Type :=
| NInt (z : Z)
| NReal (text : string).

Unset Elimination Schemes.
Inductive json : Type :=
| JNull
| JBool (b : bool)
| JNum (n : numlit)
| JStr (s : string)
| JArr (l : list json)
| JObj (ms : list (string * json)).
Set Elimination Schemes.

Section JsonInd.
Variable P : json -> Prop.
Hypothesis HNull : P JNull.
Hypothesis HBool : forall b, P (JBool b).
Hypothesis HNum : forall n, P (JNum n).
Hypothesis HStr : forall s, P (JStr s).
Hypothesis HArr : forall l, Forall P l -> P (JArr l).
Hypothesis HObj : forall ms, Forall (fun m => P (snd m)) ms -> P (JObj ms).

Fixpoint json_ind (j : json) : P j :=
  match j with
  | JNull => HNull
  | JBool b => HBool b
  | JNum n => HNum n
  | JStr s => HStr s
  | JArr l =>
      HArr ((fix go (l : list json) : Forall P l :=
               match l with
               | [] => Forall_nil _
               | x :: r => Forall_cons x (json_ind x) (go r)
               end) l)
  | JObj ms =>
      HObj ((fix go (ms : list (string * json)) : Forall (fun m => P (snd m)) ms :=
               match ms with
               | [] => Forall_nil _
               | m :: r => Forall_cons m (json_ind (snd m)) (go r)
               end) ms)
  end.
End JsonInd.

(** ** Struct field lookup: encoding/json's fold.go *)

Module Fold.

(** [b & caseMask], with [caseMask = ^byte(0x20)]. *)
Definition caseMask (b : ascii) : ascii :=
  let 'Ascii b0 b1 b2 b3 b4 _ b6 b7 := b in Ascii b0 b1 b2 b3 b4 false b6 b7.

Definition byte (b : ascii) : N := N_of_ascii b.

Definition isUpper (b : ascii) : bool :=
  ((65 <=? byte b) && (byte b <=? 90))%N.

Definition isLetter (b : ascii) : bool := isUpper (caseMask b).

Definition runeSelf : N := 128.

(** UTF-8 of U+017F (long s) and U+212A (Kelvin sign). *)
Definition smallLongEss : list ascii := [ascii_of_N 197; ascii_of_N 191].
Definition kelvin : list ascii := [ascii_of_N 226; ascii_of_N 132; ascii_of_N 170].

Fixpoint stripPrefix (p t : list ascii) : option (list ascii) :=
  match p, t with
  | [], _ => Some t
  | a :: p', b :: t' => if Ascii.eqb a b then stripPrefix p' t' else None
  | _ :: _, [] => None
  end.

Fixpoint equalFoldRight (s t : list ascii) : bool :=
  match s with
  | [] => match t with [] => true | _ => false end
  | sb :: s' =>
      match t with
      | [] => false
      | tb :: t' =>
          if (byte tb <? runeSelf)%N then
            if Ascii.eqb sb tb then equalFoldRight s' t'
            else if isUpper (caseMask sb)
                 then if Ascii.eqb (caseMask sb) (caseMask tb)
                      then equalFoldRight s' t' else false
                 else false
          else
            if Ascii.eqb (caseMask sb) "S"%char then
              match stripPrefix smallLongEss t with
              | Some t'' => equalFoldRight s' t''
              | None => false
              end
            else if Ascii.eqb (caseMask sb) "K"%char then
              match stripPrefix kelvin t with
              | Some t'' => equalFoldRight s' t''
              | None => false
              end
            else false
      end
  end.

Fixpoint asciiEqualFold (s t : list ascii) : bool :=
  match s, t with
  | [], [] => true
  | sb :: s', tb :: t' =>
      if Ascii.eqb sb tb then asciiEqualFold s' t'
      else if isLetter sb
           then if Ascii.eqb (caseMask sb) (caseMask tb)
                then asciiEqualFold s' t' else false
           else false
  | _, _ => false
  end.

Fixpoint simpleLetterEqualFold (s t : list ascii) : bool :=
  match s, t with
  | [], [] => true
  | sb :: s', tb :: t' =>
      if Ascii.eqb (caseMask sb) (caseMask tb)
      then simpleLetterEqualFold s' t' else false
  | _, _ => false
  end.

Definition isSpecial (b : ascii) : bool :=
  Ascii.eqb (caseMask b) "K"%char || Ascii.eqb (caseMask b) "S"%char.

Definition isAscii (b : ascii) : bool := (byte b <? runeSelf)%N.

(** [foldFunc name key]: the comparison fold.go picks for the field name
    [name], applied to [name] and [key].  Every field name of this program
    is ASCII (lemma [field_names_ascii] below), so the [bytes.EqualFold]
    branch of [foldFunc] is never taken; it is rendered as exact
    equality. *)
Definition foldFunc (name key : string) : bool :=
  let s := list_ascii_of_string name in
  let t := list_ascii_of_string key in
  if negb (forallb isAscii s) then String.eqb name key
  else if existsb isSpecial s then equalFoldRight s t
  else if existsb (fun b => negb (isLetter b)) s then asciiEqualFold s t
  else simpleLetterEqualFold s t.

End Fold.

(** ** Go slices

    A slice is nil, or a window [elems] on a backing array whose remaining
    capacity holds [spare].  encoding/json decodes an array into the slice
    already there and reuses the elements of its backing array. *)

Inductive slice (A : Type) : Type :=
| SNil
| SMk (elems spare : list A).
Arguments SNil {A}.

Definition elems {A} (sl : slice A) : list A :=
match sl with SNil => [] | SMk es _ => es end.

Definition backing {A} (sl : slice A) : list A :=
match sl with SNil => [] | SMk es sp => es ++ sp end.

(** [newcap := v.Cap() + v.Cap()/2; if newcap < 4 { newcap = 4 }]. *)
Definition growCap (cap : nat) : nat := Nat.max 4 (cap + Nat.div cap 2).

Section Array.
Variable A : Type.
Variable zero : A.
Variable dec : A -> json -> option A.

(** The loop of [decodeState.array] on a slice: [done] holds the elements
    already decoded (last first), [rest] the backing array from index
    [length done] on.  When the capacity is used up the slice grows and the
    new cells are zero. *)
Fixpoint arrayLoop (done rest : list A) (js : list json) : option (slice A) :=
match js with
| [] => Some (SMk (rev done) rest)
| j :: js' =>
    let '(cur, rest') :=
      match rest with
      | [] => (zero, repeat zero (growCap (List.length done) - List.length done - 1))
      | c :: r => (c, r)
      end in
    x <-? dec cur j ;; arrayLoop (x :: done) rest' js'
end.

Definition storeSlice (cur : slice A) (j : json) : option (slice A) :=
match j with
| JNull => Some SNil
| JArr [] => Some (SMk [] [])
| JArr js => arrayLoop [] (backing cur) js
| _ => None
end.

End Array.

(** ** Go maps with string keys

    A map is represented by its entries in strictly increasing key order
    (bytewise), the order in which [json.Marshal] writes them. *)

Definition gomap (V : Type) : Type := list (string * V).

Fixpoint mapInsert {V} (k : string) (v : V) (m : gomap V) : gomap V :=
match m with
| [] => [(k, v)]
| (k', v') :: m' =>
    match String.compare k k' with
    | Lt => (k, v) :: m
    | Eq => (k, v) :: m'
    | Gt => (k', v') :: mapInsert k v m'
    end
end.

Definition keys {V} (m : gomap V) : list string := map fst m.

(** ** Scalars *)

Definition minInt64 : Z := - 2 ^ 63.
Definition maxInt64 : Z := 2 ^ 63 - 1.
Definition inInt64 (z : Z) : bool := (minInt64 <=? z) && (z <=? maxInt64).

(** [literalStore]: null leaves a string, bool or int as it is. *)
Definition storeString (cur : string) (j : json) : option string :=
match j with
| JNull => Some cur
| JStr s => Some s
| _ => None
end.

Definition storeBool (cur : bool) (j : json) : option bool :=
match j with
| JNull => Some cur
| JBool b => Some b
| _ => None
end.

(** [int] is 64 bits wide; a literal with a fraction or an exponent, or out
    of range, is an [UnmarshalTypeError]. *)
Definition storeInt (cur : Z) (j : json) : option Z :=
match j with
| JNull => Some cur
| JNum (NInt z) => if inInt64 z then Some z else None
| _ => None
end.

(** [map[string]string]: null gives the nil map; an object is merged into
    the map already there, each value decoded into a fresh empty string. *)
Fixpoint storeEntries (ms : list (string * json)) (m : gomap string) : option (gomap string) :=
match ms with
| [] => Some m
| (k, x) :: ms' => v <-? storeString "" x ;; storeEntries ms' (mapInsert k v m)
end.

Definition storeMap (cur : option (gomap string)) (j : json) : option (option (gomap string)) :=
match j with
| JNull => Some None
| JObj ms =>
    m <-? storeEntries ms (match cur with Some m => m | None => [] end) ;;
    Some (Some m)
| _ => None
end.

Definition encodeString (s : string) : json := JStr s.
Definition encodeBool (b : bool) : json := JBool b.
Definition encodeInt (z : Z) : json := JNum (NInt z).

Definition encodeSlice {A} (enc : A -> json) (sl : slice A) : json :=
match sl with
| SNil => JNull
| SMk es _ => JArr (map enc es)
end.

Definition encodeMap (m : option (gomap string)) : json :=
match m with
| None => JNull
| Some m => JObj (map (fun kv => (fst kv, encodeString (snd kv))) m)
end.

(** ** Decoding an object into a struct

    [decodeState.object]: members are taken in order; a key selects the field
    whose name it equals, or else the first field whose name it matches under
    the field's fold function; the value of a key that selects no field is
    skipped. *)

Section Struct.
Variable F : Type.
Variable T : Type.
Variable fields : list F.
Variable name : F -> string.
Variable store : F -> json -> T -> option T.

Definition findField (key : string) : option F :=
match find (fun f => String.eqb (name f) key) fields with
| Some f => Some f
| None => find (fun f => Fold.foldFunc (name f) key) fields
end.

Fixpoint objectLoop (ms : list (string * json)) (s : T) : option T :=
match ms with
| [] => Some s
| (k, x) :: ms' =>
    match findField k with
    | Some f => s' <-? store f x s ;; objectLoop ms' s'
    | None => objectLoop ms' s
    end
end.

(** null leaves a struct as it is. *)
Definition storeStruct (cur : T) (j : json) : option T :=
match j with
| JNull => Some cur
| JObj ms => objectLoop ms cur
| _ => None
end.

End Struct.

(** ** The element type of [settings.SMTP] *)

Record smtpBlock : Type := mkSmtp {
  Enabled : bool;
  Host : string;
  HelloHostname : string;
  Port : Z;
  AuthProtocol : string;
  Username : string;
  Password : string;
  EmailHeaders : slice (option (gomap string));
  MaxConns : Z;
  MaxMsgRetries : Z;
  IdleTimeout : string;
  WaitTimeout : string;
  TLSEnabled : bool;
  TLSSkipVerify : bool
}.

(** The zero value of the struct. *)
Definition zeroSmtp : smtpBlock :=
  mkSmtp false "" "" 0 "" "" "" SNil 0 0 "" "" false false.

(** The fields of the struct, in declaration order, with their [json] tags. *)
Inductive smtpField : Type :=
| fEnabled | fHost | fHelloHostname | fPort | fAuthProtocol | fUsername
| fPassword | fEmailHeaders | fMaxConns | fMaxMsgRetries | fIdleTimeout
| fWaitTimeout | fTLSEnabled | fTLSSkipVerify.

Definition smtpFields : list smtpField :=
  [fEnabled; fHost; fHelloHostname; fPort; fAuthProtocol; fUsername;
  fPassword; fEmailHeaders; fMaxConns; fMaxMsgRetries; fIdleTimeout;
  fWaitTimeout; fTLSEnabled; fTLSSkipVerify].

Definition smtpFieldName (f : smtpField) : string :=
match f with
| fEnabled => "enabled"
| fHost => "host"
| fHelloHostname => "hello_hostname"
| fPort => "port"
| fAuthProtocol => "auth_protocol"
| fUsername => "username"
| fPassword => "password"
| fEmailHeaders => "email_headers"
| fMaxConns => "max_conns"
| fMaxMsgRetries => "max_msg_retries"
| fIdleTimeout => "idle_timeout"
| fWaitTimeout => "wait_timeout"
| fTLSEnabled => "tls_enabled"
| fTLSSkipVerify => "tls_skip_verify"
end.

Definition set_Enabled (x : bool) (b : smtpBlock) : smtpBlock :=
  let '(mkSmtp _ a1 a2 a3 a4 a5 a6 a7 a8 a9 a10 a11 a12 a13) := b in
  mkSmtp x a1 a2 a3 a4 a5 a6 a7 a8 a9 a10 a11 a12 a13.

Definition set_Host (x : string) (b : smtpBlock) : smtpBlock :=
  let '(mkSmtp a0 _ a2 a3 a4 a5 a6 a7 a8 a9 a10 a11 a12 a13) := b in
  mkSmtp a0 x a2 a3 a4 a5 a6 a7 a8 a9 a10 a11 a12 a13.

Definition set_HelloHostname (x : string) (b : smtpBlock) : smtpBlock :=
  let '(mkSmtp a0 a1 _ a3 a4 a5 a6 a7 a8 a9 a10 a11 a12 a13) := b in
  mkSmtp a0 a1 x a3 a4 a5 a6 a7 a8 a9 a10 a11 a12 a13.

Definition set_Port (x : Z) (b : smtpBlock) : smtpBlock :=
  let '(mkSmtp a0 a1 a2 _ a4 a5 a6 a7 a8 a9 a10 a11 a12 a13) := b in
  mkSmtp a0 a1 a2 x a4 a5 a6 a7 a8 a9 a10 a11 a12 a13.

Definition set_AuthProtocol (x : string) (b : smtpBlock) : smtpBlock :=
  let '(mkSmtp a0 a1 a2 a3 _ a5 a6 a7 a8 a9 a10 a11 a12 a13) := b in
  mkSmtp a0 a1 a2 a3 x a5 a6 a7 a8 a9 a10 a11 a12 a13.

Definition set_Username (x : string) (b : smtpBlock) : smtpBlock :=
  let '(mkSmtp a0 a1 a2 a3 a4 _ a6 a7 a8 a9 a10 a11 a12 a13) := b in
  mkSmtp a0 a1 a2 a3 a4 x a6 a7 a8 a9 a10 a11 a12 a13.

Definition set_Password (x : string) (b : smtpBlock) : smtpBlock :=
  let '(mkSmtp a0 a1 a2 a3 a4 a5 _ a7 a8 a9 a10 a11 a12 a13) := b in
  mkSmtp a0 a1 a2 a3 a4 a5 x a7 a8 a9 a10 a11 a12 a13.

Definition set_EmailHeaders (x : slice (option (gomap string))) (b : smtpBlock) : smtpBlock :=
  let '(mkSmtp a0 a1 a2 a3 a4 a5 a6 _ a8 a9 a10 a11 a12 a13) := b in
  mkSmtp a0 a1 a2 a3 a4 a5 a6 x a8 a9 a10 a11 a12 a13.

Definition set_MaxConns (x : Z) (b : smtpBlock) : smtpBlock :=
  let '(mkSmtp a0 a1 a2 a3 a4 a5 a6 a7 _ a9 a10 a11 a12 a13) := b in
  mkSmtp a0 a1 a2 a3 a4 a5 a6 a7 x a9 a10 a11 a12 a13.

Definition set_MaxMsgRetries (x : Z) (b : smtpBlock) : smtpBlock :=
  let '(mkSmtp a0 a1 a2 a3 a4 a5 a6 a7 a8 _ a10 a11 a12 a13) := b in
  mkSmtp a0 a1 a2 a3 a4 a5 a6 a7 a8 x a10 a11 a12 a13.

Definition set_IdleTimeout (x : string) (b : smtpBlock) : smtpBlock :=
  let '(mkSmtp a0 a1 a2 a3 a4 a5 a6 a7 a8 a9 _ a11 a12 a13) := b in
  mkSmtp a0 a1 a2 a3 a4 a5 a6 a7 a8 a9 x a11 a12 a13.

Definition set_WaitTimeout (x : string) (b : smtpBlock) : smtpBlock :=
  let '(mkSmtp a0 a1 a2 a3 a4 a5 a6 a7 a8 a9 a10 _ a12 a13) := b in
  mkSmtp a0 a1 a2 a3 a4 a5 a6 a7 a8 a9 a10 x a12 a13.

Definition set_TLSEnabled (x : bool) (b : smtpBlock) : smtpBlock :=
  let '(mkSmtp a0 a1 a2 a3 a4 a5 a6 a7 a8 a9 a10 a11 _ a13) := b in
  mkSmtp a0 a1 a2 a3 a4 a5 a6 a7 a8 a9 a10 a11 x a13.

Definition set_TLSSkipVerify (x : bool) (b : smtpBlock) : smtpBlock :=
  let '(mkSmtp a0 a1 a2 a3 a4 a5 a6 a7 a8 a9 a10 a11 a12 _) := b in
  mkSmtp a0 a1 a2 a3 a4 a5 a6 a7 a8 a9 a10 a11 a12 x.

Definition storeSmtpField (f : smtpField) (j : json) (b : smtpBlock) : option smtpBlock :=
match f with
| fEnabled => x <-? storeBool (Enabled b) j ;; Some (set_Enabled x b)
| fHost => x <-? storeString (Host b) j ;; Some (set_Host x b)
| fHelloHostname => x <-? storeString (HelloHostname b) j ;; Some (set_HelloHostname x b)
| fPort => x <-? storeInt (Port b) j ;; Some (set_Port x b)
| fAuthProtocol => x <-? storeString (AuthProtocol b) j ;; Some (set_AuthProtocol x b)
| fUsername => x <-? storeString (Username b) j ;; Some (set_Username x b)
| fPassword => x <-? storeString (Password b) j ;; Some (set_Password x b)
| fEmailHeaders => x <-? storeSlice None storeMap (EmailHeaders b) j ;; Some (set_EmailHeaders x b)
| fMaxConns => x <-? storeInt (MaxConns b) j ;; Some (set_MaxConns x b)
| fMaxMsgRetries => x <-? storeInt (MaxMsgRetries b) j ;; Some (set_MaxMsgRetries x b)
| fIdleTimeout => x <-? storeString (IdleTimeout b) j ;; Some (set_IdleTimeout x b)
| fWaitTimeout => x <-? storeString (WaitTimeout b) j ;; Some (set_WaitTimeout x b)
| fTLSEnabled => x <-? storeBool (TLSEnabled b) j ;; Some (set_TLSEnabled x b)
| fTLSSkipVerify => x <-? storeBool (TLSSkipVerify b) j ;; Some (set_TLSSkipVerify x b)
end.

Definition storeSmtp (cur : smtpBlock) (j : json) : option smtpBlock :=
storeStruct smtpFields smtpFieldName storeSmtpField cur j.

Definition encodeSmtp (b : smtpBlock) : json :=
JObj [
  ("enabled", encodeBool (Enabled b));
  ("host", encodeString (Host b));
  ("hello_hostname", encodeString (HelloHostname b));
  ("port", encodeInt (Port b));
  ("auth_protocol", encodeString (AuthProtocol b));
  ("username", encodeString (Username b));
  ("password", encodeString (Password b));
  ("email_headers", encodeSlice encodeMap (EmailHeaders b));
  ("max_conns", encodeInt (MaxConns b));
  ("max_msg_retries", encodeInt (MaxMsgRetries b));
  ("idle_timeout", encodeString (IdleTimeout b));
  ("wait_timeout", encodeString (WaitTimeout b));
  ("tls_enabled", encodeBool (TLSEnabled b));
  ("tls_skip_verify", encodeBool (TLSSkipVerify b))
].

(** ** The state the handlers act on *)

Inductive signal : Type := SIGHUP.

(** What a goroutine started by a handler does, statement by statement. *)
Inductive stmt : Type :=
| After (milliseconds : Z)
| Send (sig : signal).

Definition goroutine : Type := list stmt.

(** The calls a handler makes on its collaborators, in order. *)
Inductive call : Type :=
| CallGet
| CallUnmarshal
| CallBind
| CallMarshal
| CallExec (b : json)
| CallHasRunningCampaigns
| CallLock
| CallUnlock
| CallGo (g : goroutine).

Record state : Type := mkState {
  stored : json;
  needsRestart : bool;
  goroutines : list goroutine;
  calls : list call
}.

(** What the collaborators answer during one request: whether the two
    queries fail (and with which error text), and what the campaign manager
    reports. *)
Record env : Type := mkEnv {
  getErr : option string;
  execErr : option string;
  hasRunningCampaigns : bool
}.

(** The body of a request: text that is not JSON, or the tree of its JSON. *)
Inductive body : Type :=
| Malformed
| Body (j : json).


(** ** Concrete collaborators and requests for the examples

    An instance of the number conversion in which the floats are the
    integers: an integer literal is read as itself and written back as
    itself, any other literal is out of range. *)

Module Sample.

Definition float64 : Type := Z.

Definition parseFloat (n : numlit) : option float64 :=
match n with
| NInt z => Some z
| NReal _ => None
end.

Definition formatFloat (f : float64) : numlit := NInt f.

Definition pqErrMsg (err : string) : string := err.

Definition unmarshalErr (data : json) : string := "json: cannot unmarshal".

(** Scenario A: no block is enabled. *)
Definition scenarioA : json :=
JObj [("smtp", JArr [JObj [("enabled", JBool false); ("host", JStr "a")]])].

(** Scenarios B and C: one enabled block with a password. *)
Definition scenarioB : json :=
JObj [("smtp", JArr [JObj [("enabled", JBool true);
                           ("host", JStr "mx.example.com");
                           ("password", JStr "secret")]])].

(** A document with messengers, headers and a repeated key. *)
Definition scenarioE : json :=
JObj [("SMTP", JArr [JObj [("enabled", JBool true); ("port", JNum (NInt 25));
                           ("email_headers",
                            JArr [JObj [("X-B", JStr "2"); ("X-A", JStr "1")]])]]);
      ("messengers", JArr [JObj [("name", JStr "sms"); ("retries", JNum (NInt 3));
                                 ("name", JStr "push")]; JNull]);
      ("unknown", JStr "dropped");
      ("app.batch_size", JNum (NInt 1000))].

Definition idle : env := mkEnv None None false.
Definition busy : env := mkEnv None None true.
Definition dbDown : env := mkEnv (Some "connection refused") (Some "connection refused") false.

Definition st0 : state := mkState (JObj []) false [] [].

End Sample.

Section Codec.

(** float64 values and their conversion from and to number literals
    ([strconv.ParseFloat], which fails out of range, and the encoder's
    shortest form) are kept abstract. *)
Variable float64 : Type.
Variable parseFloat : numlit -> option float64.
Variable formatFloat : float64 -> numlit.

(** What the last part of the file assumes of them: a float the encoder
    wrote is read back as the same float. *)
Hypothesis parseFloat_formatFloat :
  forall f, parseFloat (formatFloat f) = Some f.

(** ** interface{} values as [encoding/json] produces them *)

Unset Elimination Schemes.
Inductive iface : Type :=
| INil
| IBool (b : bool)
| IFloat (f : float64)
| IString (s : string)
| ISlice (l : list iface)
| IMap (m : gomap iface).
Set Elimination Schemes.

(** [valueInterface], [arrayInterface], [objectInterface]: a fresh value
    every time; in an object a later member replaces an earlier one of the
    same key. *)
Fixpoint valueInterface (j : json) : option iface :=
match j with
| JNull => Some INil
| JBool b => Some (IBool b)
| JNum n => f <-? parseFloat n ;; Some (IFloat f)
| JStr s => Some (IString s)
| JArr l =>
    l' <-? (fix arrayInterface (l : list json) : option (list iface) :=
              match l with
              | [] => Some []
              | x :: r =>
                  v <-? valueInterface x ;;
                  r' <-? arrayInterface r ;;
                  Some (v :: r')
              end) l ;;
    Some (ISlice l')
| JObj ms =>
    m <-? (fix objectInterface (ms : list (string * json)) (m : gomap iface)
             : option (gomap iface) :=
             match ms with
             | [] => Some m
             | kx :: r =>
                 v <-? valueInterface (snd kx) ;;
                 objectInterface r (mapInsert (fst kx) v m)
             end) ms [] ;;
    Some (IMap m)
end.

Fixpoint encodeInterface (v : iface) : json :=
match v with
| INil => JNull
| IBool b => JBool b
| IFloat f => JNum (formatFloat f)
| IString s => JStr s
| ISlice l => JArr (map encodeInterface l)
| IMap m => JObj (map (fun kv => (fst kv, encodeInterface (snd kv))) m)
end.

(** An element of [[]interface{}] is replaced whatever it held. *)
Definition storeInterface (cur : iface) (j : json) : option iface :=
valueInterface j.


(** ** The [settings] struct *)

Record settings : Type := mkSettings {
  AppRootURL : string;
  AppLogoURL : string;
  AppFaviconURL : string;
  AppFromEmail : string;
  AppNotifyEmails : slice string;
  AppBatchSize : Z;
  AppConcurrency : Z;
  AppMaxSendErrors : Z;
  AppMessageRate : Z;
  Messengers : slice iface;
  PrivacyAllowBlacklist : bool;
  PrivacyAllowExport : bool;
  PrivacyAllowWipe : bool;
  PrivacyExportable : slice string;
  SMTP : slice smtpBlock;
  UploadProvider : string;
  UploadFilesystemUploadPath : string;
  UploadFilesystemUploadURI : string;
  UploadS3AwsAccessKeyID : string;
  UploadS3AwsDefaultRegion : string;
  UploadS3AwsSecretAccessKey : string;
  UploadS3Bucket : string;
  UploadS3BucketDomain : string;
  UploadS3BucketPath : string;
  UploadS3BucketType : string;
  UploadS3Expiry : Z
}.

(** The zero value of the struct. *)
Definition zeroSettings : settings :=
  mkSettings "" "" "" "" SNil 0 0 0 0 SNil false false false SNil SNil "" ""
  "" "" "" "" "" "" "" "" 0.

(** The fields of the struct, in declaration order, with their [json] tags. *)
Inductive settingsField : Type :=
| fAppRootURL | fAppLogoURL | fAppFaviconURL | fAppFromEmail
| fAppNotifyEmails | fAppBatchSize | fAppConcurrency | fAppMaxSendErrors
| fAppMessageRate | fMessengers | fPrivacyAllowBlacklist
| fPrivacyAllowExport | fPrivacyAllowWipe | fPrivacyExportable | fSMTP
| fUploadProvider | fUploadFilesystemUploadPath | fUploadFilesystemUploadURI
| fUploadS3AwsAccessKeyID | fUploadS3AwsDefaultRegion
| fUploadS3AwsSecretAccessKey | fUploadS3Bucket | fUploadS3BucketDomain
| fUploadS3BucketPath | fUploadS3BucketType | fUploadS3Expiry.

Definition settingsFields : list settingsField :=
  [fAppRootURL; fAppLogoURL; fAppFaviconURL; fAppFromEmail; fAppNotifyEmails;
  fAppBatchSize; fAppConcurrency; fAppMaxSendErrors; fAppMessageRate;
  fMessengers; fPrivacyAllowBlacklist; fPrivacyAllowExport;
  fPrivacyAllowWipe; fPrivacyExportable; fSMTP; fUploadProvider;
  fUploadFilesystemUploadPath; fUploadFilesystemUploadURI;
  fUploadS3AwsAccessKeyID; fUploadS3AwsDefaultRegion;
  fUploadS3AwsSecretAccessKey; fUploadS3Bucket; fUploadS3BucketDomain;
  fUploadS3BucketPath; fUploadS3BucketType; fUploadS3Expiry].

Definition settingsFieldName (f : settingsField) : string :=
match f with
| fAppRootURL => "app.root_url"
| fAppLogoURL => "app.logo_url"
| fAppFaviconURL => "app.favicon_url"
| fAppFromEmail => "app.from_email"
| fAppNotifyEmails => "app.notify_emails"
| fAppBatchSize => "app.batch_size"
| fAppConcurrency => "app.concurrency"
| fAppMaxSendErrors => "app.max_send_errors"
| fAppMessageRate => "app.message_rate"
| fMessengers => "messengers"
| fPrivacyAllowBlacklist => "privacy.allow_blacklist"
| fPrivacyAllowExport => "privacy.allow_export"
| fPrivacyAllowWipe => "privacy.allow_wipe"
| fPrivacyExportable => "privacy.exportable"
| fSMTP => "smtp"
| fUploadProvider => "upload.provider"
| fUploadFilesystemUploadPath => "upload.filesystem.upload_path"
| fUploadFilesystemUploadURI => "upload.filesystem.upload_uri"
| fUploadS3AwsAccessKeyID => "upload.s3.aws_access_key_id"
| fUploadS3AwsDefaultRegion => "upload.s3.aws_default_region"
| fUploadS3AwsSecretAccessKey => "upload.s3.aws_secret_access_key"
| fUploadS3Bucket => "upload.s3.bucket"
| fUploadS3BucketDomain => "upload.s3.bucket_domain"
| fUploadS3BucketPath => "upload.s3.bucket_path"
| fUploadS3BucketType => "upload.s3.bucket_type"
| fUploadS3Expiry => "upload.s3.expiry"
end.

Definition set_AppRootURL (x : string) (s : settings) : settings :=
  let '(mkSettings _ a1 a2 a3 a4 a5 a6 a7 a8 a9 a10 a11 a12 a13 a14 a15 a16
  a17 a18 a19 a20 a21 a22 a23 a24 a25) := s in
  mkSettings x a1 a2 a3 a4 a5 a6 a7 a8 a9 a10 a11 a12 a13 a14 a15 a16 a17 a18
  a19 a20 a21 a22 a23 a24 a25.

Definition set_AppLogoURL (x : string) (s : settings) : settings :=
  let '(mkSettings a0 _ a2 a3 a4 a5 a6 a7 a8 a9 a10 a11 a12 a13 a14 a15 a16
  a17 a18 a19 a20 a21 a22 a23 a24 a25) := s in
  mkSettings a0 x a2 a3 a4 a5 a6 a7 a8 a9 a10 a11 a12 a13 a14 a15 a16 a17 a18
  a19 a20 a21 a22 a23 a24 a25.

Definition set_AppFaviconURL (x : string) (s : settings) : settings :=
  let '(mkSettings a0 a1 _ a3 a4 a5 a6 a7 a8 a9 a10 a11 a12 a13 a14 a15 a16
  a17 a18 a19 a20 a21 a22 a23 a24 a25) := s in
  mkSettings a0 a1 x a3 a4 a5 a6 a7 a8 a9 a10 a11 a12 a13 a14 a15 a16 a17 a18
  a19 a20 a21 a22 a23 a24 a25.

Definition set_AppFromEmail (x : string) (s : settings) : settings :=
  let '(mkSettings a0 a1 a2 _ a4 a5 a6 a7 a8 a9 a10 a11 a12 a13 a14 a15 a16
  a17 a18 a19 a20 a21 a22 a23 a24 a25) := s in
  mkSettings a0 a1 a2 x a4 a5 a6 a7 a8 a9 a10 a11 a12 a13 a14 a15 a16 a17 a18
  a19 a20 a21 a22 a23 a24 a25.

Definition set_AppNotifyEmails (x : slice string) (s : settings) : settings :=
  let '(mkSettings a0 a1 a2 a3 _ a5 a6 a7 a8 a9 a10 a11 a12 a13 a14 a15 a16
  a17 a18 a19 a20 a21 a22 a23 a24 a25) := s in
  mkSettings a0 a1 a2 a3 x a5 a6 a7 a8 a9 a10 a11 a12 a13 a14 a15 a16 a17 a18
  a19 a20 a21 a22 a23 a24 a25.

Definition set_AppBatchSize (x : Z) (s : settings) : settings :=
  let '(mkSettings a0 a1 a2 a3 a4 _ a6 a7 a8 a9 a10 a11 a12 a13 a14 a15 a16
  a17 a18 a19 a20 a21 a22 a23 a24 a25) := s in
  mkSettings a0 a1 a2 a3 a4 x a6 a7 a8 a9 a10 a11 a12 a13 a14 a15 a16 a17 a18
  a19 a20 a21 a22 a23 a24 a25.

Definition set_AppConcurrency (x : Z) (s : settings) : settings :=
  let '(mkSettings a0 a1 a2 a3 a4 a5 _ a7 a8 a9 a10 a11 a12 a13 a14 a15 a16
  a17 a18 a19 a20 a21 a22 a23 a24 a25) := s in
  mkSettings a0 a1 a2 a3 a4 a5 x a7 a8 a9 a10 a11 a12 a13 a14 a15 a16 a17 a18
  a19 a20 a21 a22 a23 a24 a25.

Definition set_AppMaxSendErrors (x : Z) (s : settings) : settings :=
  let '(mkSettings a0 a1 a2 a3 a4 a5 a6 _ a8 a9 a10 a11 a12 a13 a14 a15 a16
  a17 a18 a19 a20 a21 a22 a23 a24 a25) := s in
  mkSettings a0 a1 a2 a3 a4 a5 a6 x a8 a9 a10 a11 a12 a13 a14 a15 a16 a17 a18
  a19 a20 a21 a22 a23 a24 a25.

Definition set_AppMessageRate (x : Z) (s : settings) : settings :=
  let '(mkSettings a0 a1 a2 a3 a4 a5 a6 a7 _ a9 a10 a11 a12 a13 a14 a15 a16
  a17 a18 a19 a20 a21 a22 a23 a24 a25) := s in
  mkSettings a0 a1 a2 a3 a4 a5 a6 a7 x a9 a10 a11 a12 a13 a14 a15 a16 a17 a18
  a19 a20 a21 a22 a23 a24 a25.

Definition set_Messengers (x : slice iface) (s : settings) : settings :=
  let '(mkSettings a0 a1 a2 a3 a4 a5 a6 a7 a8 _ a10 a11 a12 a13 a14 a15 a16
  a17 a18 a19 a20 a21 a22 a23 a24 a25) := s in
  mkSettings a0 a1 a2 a3 a4 a5 a6 a7 a8 x a10 a11 a12 a13 a14 a15 a16 a17 a18
  a19 a20 a21 a22 a23 a24 a25.

Definition set_PrivacyAllowBlacklist (x : bool) (s : settings) : settings :=
  let '(mkSettings a0 a1 a2 a3 a4 a5 a6 a7 a8 a9 _ a11 a12 a13 a14 a15 a16
  a17 a18 a19 a20 a21 a22 a23 a24 a25) := s in
  mkSettings a0 a1 a2 a3 a4 a5 a6 a7 a8 a9 x a11 a12 a13 a14 a15 a16 a17 a18
  a19 a20 a21 a22 a23 a24 a25.

Definition set_PrivacyAllowExport (x : bool) (s : settings) : settings :=
  let '(mkSettings a0 a1 a2 a3 a4 a5 a6 a7 a8 a9 a10 _ a12 a13 a14 a15 a16
  a17 a18 a19 a20 a21 a22 a23 a24 a25) := s in
  mkSettings a0 a1 a2 a3 a4 a5 a6 a7 a8 a9 a10 x a12 a13 a14 a15 a16 a17 a18
  a19 a20 a21 a22 a23 a24 a25.

Definition set_PrivacyAllowWipe (x : bool) (s : settings) : settings :=
  let '(mkSettings a0 a1 a2 a3 a4 a5 a6 a7 a8 a9 a10 a11 _ a13 a14 a15 a16
  a17 a18 a19 a20 a21 a22 a23 a24 a25) := s in
  mkSettings a0 a1 a2 a3 a4 a5 a6 a7 a8 a9 a10 a11 x a13 a14 a15 a16 a17 a18
  a19 a20 a21 a22 a23 a24 a25.

Definition set_PrivacyExportable (x : slice string) (s : settings) : settings :=
  let '(mkSettings a0 a1 a2 a3 a4 a5 a6 a7 a8 a9 a10 a11 a12 _ a14 a15 a16
  a17 a18 a19 a20 a21 a22 a23 a24 a25) := s in
  mkSettings a0 a1 a2 a3 a4 a5 a6 a7 a8 a9 a10 a11 a12 x a14 a15 a16 a17 a18
  a19 a20 a21 a22 a23 a24 a25.

Definition set_SMTP (x : slice smtpBlock) (s : settings) : settings :=
  let '(mkSettings a0 a1 a2 a3 a4 a5 a6 a7 a8 a9 a10 a11 a12 a13 _ a15 a16
  a17 a18 a19 a20 a21 a22 a23 a24 a25) := s in
  mkSettings a0 a1 a2 a3 a4 a5 a6 a7 a8 a9 a10 a11 a12 a13 x a15 a16 a17 a18
  a19 a20 a21 a22 a23 a24 a25.

Definition set_UploadProvider (x : string) (s : settings) : settings :=
  let '(mkSettings a0 a1 a2 a3 a4 a5 a6 a7 a8 a9 a10 a11 a12 a13 a14 _ a16
  a17 a18 a19 a20 a21 a22 a23 a24 a25) := s in
  mkSettings a0 a1 a2 a3 a4 a5 a6 a7 a8 a9 a10 a11 a12 a13 a14 x a16 a17 a18
  a19 a20 a21 a22 a23 a24 a25.

Definition set_UploadFilesystemUploadPath (x : string) (s : settings) : settings :=
  let '(mkSettings a0 a1 a2 a3 a4 a5 a6 a7 a8 a9 a10 a11 a12 a13 a14 a15 _
  a17 a18 a19 a20 a21 a22 a23 a24 a25) := s in
  mkSettings a0 a1 a2 a3 a4 a5 a6 a7 a8 a9 a10 a11 a12 a13 a14 a15 x a17 a18
  a19 a20 a21 a22 a23 a24 a25.

Definition set_UploadFilesystemUploadURI (x : string) (s : settings) : settings :=
  let '(mkSettings a0 a1 a2 a3 a4 a5 a6 a7 a8 a9 a10 a11 a12 a13 a14 a15 a16
  _ a18 a19 a20 a21 a22 a23 a24 a25) := s in
  mkSettings a0 a1 a2 a3 a4 a5 a6 a7 a8 a9 a10 a11 a12 a13 a14 a15 a16 x a18
  a19 a20 a21 a22 a23 a24 a25.

Definition set_UploadS3AwsAccessKeyID (x : string) (s : settings) : settings :=
  let '(mkSettings a0 a1 a2 a3 a4 a5 a6 a7 a8 a9 a10 a11 a12 a13 a14 a15 a16
  a17 _ a19 a20 a21 a22 a23 a24 a25) := s in
  mkSettings a0 a1 a2 a3 a4 a5 a6 a7 a8 a9 a10 a11 a12 a13 a14 a15 a16 a17 x
  a19 a20 a21 a22 a23 a24 a25.

Definition set_UploadS3AwsDefaultRegion (x : string) (s : settings) : settings :=
  let '(mkSettings a0 a1 a2 a3 a4 a5 a6 a7 a8 a9 a10 a11 a12 a13 a14 a15 a16
  a17 a18 _ a20 a21 a22 a23 a24 a25) := s in
  mkSettings a0 a1 a2 a3 a4 a5 a6 a7 a8 a9 a10 a11 a12 a13 a14 a15 a16 a17
  a18 x a20 a21 a22 a23 a24 a25.

Definition set_UploadS3AwsSecretAccessKey (x : string) (s : settings) : settings :=
  let '(mkSettings a0 a1 a2 a3 a4 a5 a6 a7 a8 a9 a10 a11 a12 a13 a14 a15 a16
  a17 a18 a19 _ a21 a22 a23 a24 a25) := s in
  mkSettings a0 a1 a2 a3 a4 a5 a6 a7 a8 a9 a10 a11 a12 a13 a14 a15 a16 a17
  a18 a19 x a21 a22 a23 a24 a25.

Definition set_UploadS3Bucket (x : string) (s : settings) : settings :=
  let '(mkSettings a0 a1 a2 a3 a4 a5 a6 a7 a8 a9 a10 a11 a12 a13 a14 a15 a16
  a17 a18 a19 a20 _ a22 a23 a24 a25) := s in
  mkSettings a0 a1 a2 a3 a4 a5 a6 a7 a8 a9 a10 a11 a12 a13 a14 a15 a16 a17
  a18 a19 a20 x a22 a23 a24 a25.

Definition set_UploadS3BucketDomain (x : string) (s : settings) : settings :=
  let '(mkSettings a0 a1 a2 a3 a4 a5 a6 a7 a8 a9 a10 a11 a12 a13 a14 a15 a16
  a17 a18 a19 a20 a21 _ a23 a24 a25) := s in
  mkSettings a0 a1 a2 a3 a4 a5 a6 a7 a8 a9 a10 a11 a12 a13 a14 a15 a16 a17
  a18 a19 a20 a21 x a23 a24 a25.

Definition set_UploadS3BucketPath (x : string) (s : settings) : settings :=
  let '(mkSettings a0 a1 a2 a3 a4 a5 a6 a7 a8 a9 a10 a11 a12 a13 a14 a15 a16
  a17 a18 a19 a20 a21 a22 _ a24 a25) := s in
  mkSettings a0 a1 a2 a3 a4 a5 a6 a7 a8 a9 a10 a11 a12 a13 a14 a15 a16 a17
  a18 a19 a20 a21 a22 x a24 a25.

Definition set_UploadS3BucketType (x : string) (s : settings) : settings :=
  let '(mkSettings a0 a1 a2 a3 a4 a5 a6 a7 a8 a9 a10 a11 a12 a13 a14 a15 a16
  a17 a18 a19 a20 a21 a22 a23 _ a25) := s in
  mkSettings a0 a1 a2 a3 a4 a5 a6 a7 a8 a9 a10 a11 a12 a13 a14 a15 a16 a17
  a18 a19 a20 a21 a22 a23 x a25.

Definition set_UploadS3Expiry (x : Z) (s : settings) : settings :=
  let '(mkSettings a0 a1 a2 a3 a4 a5 a6 a7 a8 a9 a10 a11 a12 a13 a14 a15 a16
  a17 a18 a19 a20 a21 a22 a23 a24 _) := s in
  mkSettings a0 a1 a2 a3 a4 a5 a6 a7 a8 a9 a10 a11 a12 a13 a14 a15 a16 a17
  a18 a19 a20 a21 a22 a23 a24 x.

Definition storeSettingsField (f : settingsField) (j : json) (s : settings) : option settings :=
match f with
| fAppRootURL => x <-? storeString (AppRootURL s) j ;; Some (set_AppRootURL x s)
| fAppLogoURL => x <-? storeString (AppLogoURL s) j ;; Some (set_AppLogoURL x s)
| fAppFaviconURL => x <-? storeString (AppFaviconURL s) j ;; Some (set_AppFaviconURL x s)
| fAppFromEmail => x <-? storeString (AppFromEmail s) j ;; Some (set_AppFromEmail x s)
| fAppNotifyEmails => x <-? storeSlice "" storeString (AppNotifyEmails s) j ;; Some (set_AppNotifyEmails x s)
| fAppBatchSize => x <-? storeInt (AppBatchSize s) j ;; Some (set_AppBatchSize x s)
| fAppConcurrency => x <-? storeInt (AppConcurrency s) j ;; Some (set_AppConcurrency x s)
| fAppMaxSendErrors => x <-? storeInt (AppMaxSendErrors s) j ;; Some (set_AppMaxSendErrors x s)
| fAppMessageRate => x <-? storeInt (AppMessageRate s) j ;; Some (set_AppMessageRate x s)
| fMessengers => x <-? storeSlice INil storeInterface (Messengers s) j ;; Some (set_Messengers x s)
| fPrivacyAllowBlacklist => x <-? storeBool (PrivacyAllowBlacklist s) j ;; Some (set_PrivacyAllowBlacklist x s)
| fPrivacyAllowExport => x <-? storeBool (PrivacyAllowExport s) j ;; Some (set_PrivacyAllowExport x s)
| fPrivacyAllowWipe => x <-? storeBool (PrivacyAllowWipe s) j ;; Some (set_PrivacyAllowWipe x s)
| fPrivacyExportable => x <-? storeSlice "" storeString (PrivacyExportable s) j ;; Some (set_PrivacyExportable x s)
| fSMTP => x <-? storeSlice zeroSmtp storeSmtp (SMTP s) j ;; Some (set_SMTP x s)
| fUploadProvider => x <-? storeString (UploadProvider s) j ;; Some (set_UploadProvider x s)
| fUploadFilesystemUploadPath => x <-? storeString (UploadFilesystemUploadPath s) j ;; Some (set_UploadFilesystemUploadPath x s)
| fUploadFilesystemUploadURI => x <-? storeString (UploadFilesystemUploadURI s) j ;; Some (set_UploadFilesystemUploadURI x s)
| fUploadS3AwsAccessKeyID => x <-? storeString (UploadS3AwsAccessKeyID s) j ;; Some (set_UploadS3AwsAccessKeyID x s)
| fUploadS3AwsDefaultRegion => x <-? storeString (UploadS3AwsDefaultRegion s) j ;; Some (set_UploadS3AwsDefaultRegion x s)
| fUploadS3AwsSecretAccessKey => x <-? storeString (UploadS3AwsSecretAccessKey s) j ;; Some (set_UploadS3AwsSecretAccessKey x s)
| fUploadS3Bucket => x <-? storeString (UploadS3Bucket s) j ;; Some (set_UploadS3Bucket x s)
| fUploadS3BucketDomain => x <-? storeString (UploadS3BucketDomain s) j ;; Some (set_UploadS3BucketDomain x s)
| fUploadS3BucketPath => x <-? storeString (UploadS3BucketPath s) j ;; Some (set_UploadS3BucketPath x s)
| fUploadS3BucketType => x <-? storeString (UploadS3BucketType s) j ;; Some (set_UploadS3BucketType x s)
| fUploadS3Expiry => x <-? storeInt (UploadS3Expiry s) j ;; Some (set_UploadS3Expiry x s)
end.

(** [json.Unmarshal(data, &s)] on the syntax tree of [data]. *)
Definition storeSettings (cur : settings) (j : json) : option settings :=
storeStruct settingsFields settingsFieldName storeSettingsField cur j.

Definition encodeSettings (s : settings) : json :=
JObj [
  ("app.root_url", encodeString (AppRootURL s));
  ("app.logo_url", encodeString (AppLogoURL s));
  ("app.favicon_url", encodeString (AppFaviconURL s));
  ("app.from_email", encodeString (AppFromEmail s));
  ("app.notify_emails", encodeSlice encodeString (AppNotifyEmails s));
  ("app.batch_size", encodeInt (AppBatchSize s));
  ("app.concurrency", encodeInt (AppConcurrency s));
  ("app.max_send_errors", encodeInt (AppMaxSendErrors s));
  ("app.message_rate", encodeInt (AppMessageRate s));
  ("messengers", encodeSlice encodeInterface (Messengers s));
  ("privacy.allow_blacklist", encodeBool (PrivacyAllowBlacklist s));
  ("privacy.allow_export", encodeBool (PrivacyAllowExport s));
  ("privacy.allow_wipe", encodeBool (PrivacyAllowWipe s));
  ("privacy.exportable", encodeSlice encodeString (PrivacyExportable s));
  ("smtp", encodeSlice encodeSmtp (SMTP s));
  ("upload.provider", encodeString (UploadProvider s));
  ("upload.filesystem.upload_path", encodeString (UploadFilesystemUploadPath s));
  ("upload.filesystem.upload_uri", encodeString (UploadFilesystemUploadURI s));
  ("upload.s3.aws_access_key_id", encodeString (UploadS3AwsAccessKeyID s));
  ("upload.s3.aws_default_region", encodeString (UploadS3AwsDefaultRegion s));
  ("upload.s3.aws_secret_access_key", encodeString (UploadS3AwsSecretAccessKey s));
  ("upload.s3.bucket", encodeString (UploadS3Bucket s));
  ("upload.s3.bucket_domain", encodeString (UploadS3BucketDomain s));
  ("upload.s3.bucket_path", encodeString (UploadS3BucketPath s));
  ("upload.s3.bucket_type", encodeString (UploadS3BucketType s));
  ("upload.s3.expiry", encodeInt (UploadS3Expiry s))
].

(** [json.Marshal(s)].  It fails only on a value it cannot encode (a
    channel, a function, a NaN or infinite float, cyclic data); [settings]
    holds none: the floats of [Messengers] are those [valueInterface]
    produced, which are finite.  The error branch is kept because the caller
    tests it. *)
Definition Marshal (s : settings) : string + json := inr (encodeSettings s).

(** [json.Unmarshal(data, &s)] with [s] the zero value. *)
Definition Unmarshal (data : json) : option settings :=
storeSettings zeroSettings data.

Inductive payload : Type :=
| OkSettings (s : settings)
| OkNeedsRestart (b : bool)
| OkTrue.

(** What the handler leaves to echo: a JSON response [c.JSON(code,
    okResp{..})], an [echo.NewHTTPError], or the error of [c.Bind]. *)
Inductive response : Type :=
| JSON (code : Z) (p : payload)
| HTTPError (code : Z) (message : string)
| BindError.

Definition StatusOK : Z := 200.
Definition StatusBadRequest : Z := 400.
Definition StatusInternalServerError : Z := 500.

(** [pqErrMsg], which renders a database error for the client, is not part
    of settings.go; neither is the text of a decoding error. *)
Variable pqErrMsg : string -> string.
Variable unmarshalErr : json -> string.

(** ** Handler monad: state, and a return that ends the handler *)

Inductive step (A : Type) : Type :=
| Next (a : A)
| Return (r : response).
Arguments Return {A}.

Definition handler (A : Type) : Type := state -> step A * state.

Definition ret {A} (a : A) : handler A := fun st => (Next a, st).

Definition bind {A B} (h : handler A) (k : A -> handler B) : handler B :=
fun st =>
  match h st with
  | (Next a, st') => k a st'
  | (Return r, st') => (Return r, st')
  end.

Notation "x <- h ;; k" := (bind h (fun x => k))
  (at level 61, h at next level, right associativity).
Notation "h ;;; k" := (bind h (fun _ => k))
  (at level 61, right associativity).

Definition reply {A} (r : response) : handler A := fun st => (Return r, st).

Definition record (c : call) : handler unit :=
fun st => (Next tt, mkState (stored st) (needsRestart st) (goroutines st) (calls st ++ [c])).

Definition run (h : handler response) (st : state) : response * state :=
match h st with
| (Next r, st') => (r, st')
| (Return r, st') => (r, st')
end.

(** Modelled from the spec: the two queries behind [app.queries], which are
    not in settings.go.  [get] returns the stored document or fails; [put]
    replaces the stored document as a whole or fails and leaves it. *)
Definition GetSettings (e : env) : handler (string + json) :=
record CallGet ;;;
fun st =>
  match getErr e with
  | Some err => (Next (inl err), st)
  | None => (Next (inr (stored st)), st)
  end.

Definition UpdateSettings (e : env) (b : json) : handler (option string) :=
record (CallExec b) ;;;
fun st =>
  match execErr e with
  | Some err => (Next (Some err), st)
  | None => (Next None, mkState b (needsRestart st) (goroutines st) (calls st))
  end.

Definition HasRunningCampaigns (e : env) : handler bool :=
record CallHasRunningCampaigns ;;; ret (hasRunningCampaigns e).

(** [c.Bind(&s)] for a request of content type application/json. *)
Definition decodeBody (req : body) : option settings :=
match req with
| Malformed => None
| Body j => Unmarshal j
end.

Definition Bind (req : body) : handler (option settings) :=
record CallBind ;;; ret (decodeBody req).

Definition setNeedsRestart (v : bool) : handler unit :=
fun st => (Next tt, mkState (stored st) v (goroutines st) (calls st)).

Definition go (g : goroutine) : handler unit :=
record (CallGo g) ;;;
fun st => (Next tt, mkState (stored st) (needsRestart st) (goroutines st ++ [g]) (calls st)).

(** ** handleGetSettings *)

Fixpoint update {A} (i : nat) (f : A -> A) (l : list A) : list A :=
match l, i with
| [], _ => []
| x :: r, O => f x :: r
| x :: r, S i' => x :: update i' f r
end.

(** [for i := 0; i < len(s.SMTP); i++ { s.SMTP[i].Password = "" }], with
    [n] the iterations left. *)
Fixpoint clearPasswordsFrom (n i : nat) (l : list smtpBlock) : list smtpBlock :=
match n with
| O => l
| S n' => clearPasswordsFrom n' (S i) (update i (set_Password "") l)
end.

Definition clearPasswords (sl : slice smtpBlock) : slice smtpBlock :=
match sl with
| SNil => SNil
| SMk es sp => SMk (clearPasswordsFrom (List.length es) 0 es) sp
end.

Definition handleGetSettings (e : env) : handler response :=
out <- GetSettings e ;;
match out with
| inl err =>
    reply (HTTPError StatusInternalServerError
             ("Error fetching settings: " ++ pqErrMsg err))
| inr out =>
    record CallUnmarshal ;;;
    match Unmarshal out with
    | None =>
        reply (HTTPError StatusInternalServerError
                 ("Error parsing settings: " ++ unmarshalErr out))
    | Some s =>
        let s := set_SMTP (clearPasswords (SMTP s)) s in
        let s := set_UploadS3AwsSecretAccessKey "" s in
        ret (JSON StatusOK (OkSettings s))
    end
end.

(** ** handleUpdateSettings *)

(** [for _, s := range s.SMTP { if s.Enabled { has = true; break } }]. *)
Fixpoint hasEnabled (l : list smtpBlock) : bool :=
match l with
| [] => false
| b :: r => if Enabled b then true else hasEnabled r
end.

Definition reloadTask : goroutine := [After 500; Send SIGHUP].

Definition handleUpdateSettings (e : env) (req : body) : handler response :=
bound <- Bind req ;;
match bound with
| None => reply BindError
| Some s =>
    record CallMarshal ;;;
    match Marshal s with
    | inl err =>
        reply (HTTPError StatusInternalServerError
                 ("Error encoding settings: " ++ err))
    | inr b =>
        if negb (hasEnabled (elems (SMTP s))) then
          reply (HTTPError StatusBadRequest
                   "At least one SMTP block should be enabled")
        else
          failed <- UpdateSettings e b ;;
          match failed with
          | Some err =>
              reply (HTTPError StatusInternalServerError
                       ("Error updating settings: " ++ pqErrMsg err))
          | None =>
              running <- HasRunningCampaigns e ;;
              if running then
                record CallLock ;;;
                setNeedsRestart true ;;;
                record CallUnlock ;;;
                ret (JSON StatusOK (OkNeedsRestart true))
              else
                go reloadTask ;;;
                ret (JSON StatusOK OkTrue)
          end
    end
end.

(** ** Sequences of requests *)

Inductive request : Type :=
| GetRequest (e : env)
| PutRequest (e : env) (req : body).

Definition serve (r : request) (st : state) : response * state :=
match r with
| GetRequest e => run (handleGetSettings e) st
| PutRequest e req => run (handleUpdateSettings e req) st
end.

Fixpoint serveAll (rs : list request) (st : state) : state :=
match rs with
| [] => st
| r :: rs' => serveAll rs' (snd (serve r st))
end.

(** Modelled from the spec: the state at process start, which is set up
    outside settings.go: the flag is false and nothing has been started. *)
Definition processStart (doc : json) : state := mkState doc false [] [].

(** ** The error kinds of the specification, read off a response *)

Inductive failure : Type :=
| ParseError
| ValidationError
| EncodeError
| StorageError.

Inductive fails : response -> failure -> Prop :=
| fails_parse : fails BindError ParseError
| fails_validation : forall msg,
    fails (HTTPError StatusBadRequest msg) ValidationError
| fails_encode : forall err,
    fails (HTTPError StatusInternalServerError ("Error encoding settings: " ++ err))
          EncodeError
| fails_storage : forall err,
    fails (HTTPError StatusInternalServerError ("Error updating settings: " ++ err))
          StorageError.

Definition succeeded (r : response) : bool :=
match r with
| JSON _ _ => true
| _ => false
end.

(** The number of blocks with [enabled = true]. *)
Definition enabledBlocks (s : settings) : nat :=
List.length (filter Enabled (elems (SMTP s))).

(** A request that, by the words of the specification, sets the flag: a
    write that succeeds while protected work is active. *)
Definition writeSucceedsDuringActivity (r : request) : bool :=
match r with
| GetRequest _ => false
| PutRequest e req =>
    match decodeBody req, execErr e with
    | Some s, None =>
        negb (Nat.eqb (enabledBlocks s) 0) && hasRunningCampaigns e
    | _, _ => false
    end
end.

(** Every field of a block but the password. *)
Definition sameButPassword (b0 b : smtpBlock) : Prop :=
Enabled b = Enabled b0 /\ Host b = Host b0 /\
HelloHostname b = HelloHostname b0 /\ Port b = Port b0 /\
AuthProtocol b = AuthProtocol b0 /\ Username b = Username b0 /\
EmailHeaders b = EmailHeaders b0 /\ MaxConns b = MaxConns b0 /\
MaxMsgRetries b = MaxMsgRetries b0 /\ IdleTimeout b = IdleTimeout b0 /\
WaitTimeout b = WaitTimeout b0 /\ TLSEnabled b = TLSEnabled b0 /\
TLSSkipVerify b = TLSSkipVerify b0.

(** Every field of the document but the SMTP list and the S3 secret key. *)
Definition sameButSecrets (s0 s : settings) : Prop :=
AppRootURL s = AppRootURL s0 /\ AppLogoURL s = AppLogoURL s0 /\
AppFaviconURL s = AppFaviconURL s0 /\ AppFromEmail s = AppFromEmail s0 /\
AppNotifyEmails s = AppNotifyEmails s0 /\ AppBatchSize s = AppBatchSize s0 /\
AppConcurrency s = AppConcurrency s0 /\
AppMaxSendErrors s = AppMaxSendErrors s0 /\
AppMessageRate s = AppMessageRate s0 /\ Messengers s = Messengers s0 /\
PrivacyAllowBlacklist s = PrivacyAllowBlacklist s0 /\
PrivacyAllowExport s = PrivacyAllowExport s0 /\
PrivacyAllowWipe s = PrivacyAllowWipe s0 /\
PrivacyExportable s = PrivacyExportable s0 /\
UploadProvider s = UploadProvider s0 /\
UploadFilesystemUploadPath s = UploadFilesystemUploadPath s0 /\
UploadFilesystemUploadURI s = UploadFilesystemUploadURI s0 /\
UploadS3AwsAccessKeyID s = UploadS3AwsAccessKeyID s0 /\
UploadS3AwsDefaultRegion s = UploadS3AwsDefaultRegion s0 /\
UploadS3Bucket s = UploadS3Bucket s0 /\
UploadS3BucketDomain s = UploadS3BucketDomain s0 /\
UploadS3BucketPath s = UploadS3BucketPath s0 /\
UploadS3BucketType s = UploadS3BucketType s0 /\
UploadS3Expiry s = UploadS3Expiry s0.

(** ** Well-formed decoded values

    What decoding guarantees of the values it builds: maps have their keys
    in order and integers are in the range of [int]. *)

Definition ltKey (a b : string) : Prop := String.compare a b = Lt.

Definition wfMap (m : option (gomap string)) : Prop :=
match m with
| None => True
| Some m => StronglySorted ltKey (keys m)
end.

Unset Elimination Schemes.
Inductive wfIface : iface -> Prop :=
| wf_INil : wfIface INil
| wf_IBool : forall b, wfIface (IBool b)
| wf_IFloat : forall f, wfIface (IFloat f)
| wf_IString : forall s, wfIface (IString s)
| wf_ISlice : forall l, Forall wfIface l -> wfIface (ISlice l)
| wf_IMap : forall m,
    StronglySorted ltKey (keys m) ->
    Forall (fun kv => wfIface (snd kv)) m ->
    wfIface (IMap m).
Set Elimination Schemes.

Definition wfSmtp (b : smtpBlock) : Prop :=
inInt64 (Port b) = true /\ inInt64 (MaxConns b) = true /\
inInt64 (MaxMsgRetries b) = true /\
Forall wfMap (backing (EmailHeaders b)).

Definition wfSettings (s : settings) : Prop :=
inInt64 (AppBatchSize s) = true /\ inInt64 (AppConcurrency s) = true /\
inInt64 (AppMaxSendErrors s) = true /\ inInt64 (AppMessageRate s) = true /\
inInt64 (UploadS3Expiry s) = true /\
Forall wfIface (backing (Messengers s)) /\
Forall wfSmtp (backing (SMTP s)).

(** The two inner loops of [valueInterface], by name. *)
Fixpoint arrayInterface (l : list json) : option (list iface) :=
match l with
| [] => Some []
| x :: r =>
    v <-? valueInterface x ;;
    r' <-? arrayInterface r ;;
    Some (v :: r')
end.

Fixpoint objectInterface (ms : list (string * json)) (m : gomap iface)
  : option (gomap iface) :=
match ms with
| [] => Some m
| kx :: r =>
    v <-? valueInterface (snd kx) ;;
    objectInterface r (mapInsert (fst kx) v m)
end.

Section IfaceInd.
Variable P : iface -> Prop.
Hypothesis HNil : P INil.
Hypothesis HBool : forall b, P (IBool b).
Hypothesis HFloat : forall f, P (IFloat f).
Hypothesis HString : forall s, P (IString s).
Hypothesis HSlice : forall l, Forall P l -> P (ISlice l).
Hypothesis HMap : forall m, Forall (fun kv => P (snd kv)) m -> P (IMap m).

Fixpoint iface_ind (v : iface) : P v :=
match v with
| INil => HNil
| IBool b => HBool b
| IFloat f => HFloat f
| IString s => HString s
| ISlice l =>
    HSlice ((fix all (l : list iface) : Forall P l :=
               match l with
               | [] => Forall_nil _
               | x :: r => Forall_cons x (iface_ind x) (all r)
               end) l)
| IMap m =>
    HMap ((fix all (m : gomap iface) : Forall (fun kv => P (snd kv)) m :=
             match m with
             | [] => Forall_nil _
             | kv :: r => Forall_cons kv (iface_ind (snd kv)) (all r)
             end) m)
end.
End IfaceInd.

(** "Unmarshal and marshal the fields once to sanitize the settings blob":
    what the update handler computes from the body before it validates. *)
Definition sanitize (x : json) : option json :=
s <-? Unmarshal x ;;
match Marshal s with
| inl _ => None
| inr b => Some b
end.

(** The value of the first member of an object with key [k]. *)
Definition member (k : string) (j : json) : option json :=
match j with
| JObj ms => option_map snd (find (fun kx => String.eqb (fst kx) k) ms)
| _ => None
end.

(** No member of the object selects the field [f]: the request omits it. *)
Definition omits {F : Type} (fields : list F) (name : F -> string) (f : F)
    (ms : list (string * json)) : Prop :=
Forall (fun kx => findField fields name (fst kx) <> Some f) ms.

(** What [json.Marshal] writes for a field that holds its zero value: the
    empty string, 0, false, or null for a nil slice. *)
Definition smtpZeroJSON (f : smtpField) : json :=
match f with
| fEnabled => JBool false
| fHost => JStr ""
| fHelloHostname => JStr ""
| fPort => JNum (NInt 0)
| fAuthProtocol => JStr ""
| fUsername => JStr ""
| fPassword => JStr ""
| fEmailHeaders => JNull
| fMaxConns => JNum (NInt 0)
| fMaxMsgRetries => JNum (NInt 0)
| fIdleTimeout => JStr ""
| fWaitTimeout => JStr ""
| fTLSEnabled => JBool false
| fTLSSkipVerify => JBool false
end.

Definition zeroJSON (f : settingsField) : json :=
match f with
| fAppRootURL => JStr ""
| fAppLogoURL => JStr ""
| fAppFaviconURL => JStr ""
| fAppFromEmail => JStr ""
| fAppNotifyEmails => JNull
| fAppBatchSize => JNum (NInt 0)
| fAppConcurrency => JNum (NInt 0)
| fAppMaxSendErrors => JNum (NInt 0)
| fAppMessageRate => JNum (NInt 0)
| fMessengers => JNull
| fPrivacyAllowBlacklist => JBool false
| fPrivacyAllowExport => JBool false
| fPrivacyAllowWipe => JBool false
| fPrivacyExportable => JNull
| fSMTP => JNull
| fUploadProvider => JStr ""
| fUploadFilesystemUploadPath => JStr ""
| fUploadFilesystemUploadURI => JStr ""
| fUploadS3AwsAccessKeyID => JStr ""
| fUploadS3AwsDefaultRegion => JStr ""
| fUploadS3AwsSecretAccessKey => JStr ""
| fUploadS3Bucket => JStr ""
| fUploadS3BucketDomain => JStr ""
| fUploadS3BucketPath => JStr ""
| fUploadS3BucketType => JStr ""
| fUploadS3Expiry => JNum (NInt 0)
end.

(** ** Notions used to describe runs of the handlers *)

(** What the read handler does to the document it decoded (lines 83-86). *)
Definition scrub (s : settings) : settings :=
set_UploadS3AwsSecretAccessKey "" (set_SMTP (clearPasswords (SMTP s)) s).

(** A request that starts the reload goroutine: an update that succeeds
    while no campaign is running. *)
Definition reloadScheduled (r : request) : bool :=
match r with
| GetRequest _ => false
| PutRequest e req =>
    match decodeBody req, execErr e with
    | Some s, None =>
        negb (Nat.eqb (enabledBlocks s) 0) && negb (hasRunningCampaigns e)
    | _, _ => false
    end
end.

(** The stored document decodes and has an enabled block. *)
Definition storedValid (st : state) : Prop :=
exists s, Unmarshal (stored st) = Some s /\ enabledBlocks s <> 0%nat.

Definition isLock (c : call) : bool :=
match c with CallLock => true | _ => false end.

Definition isUnlock (c : call) : bool :=
match c with CallUnlock => true | _ => false end.

Definition isExec (c : call) : bool :=
match c with CallExec _ => true | _ => false end.

Definition isProbe (c : call) : bool :=
match c with CallHasRunningCampaigns => true | _ => false end.

Unset Implicit Arguments.

(** * Properties of the handlers *)

Lemma hasEnabled_filter (l : list smtpBlock) :
  hasEnabled l = negb (Nat.eqb (List.length (filter Enabled l)) 0).
Proof.
  induction l as [|b r IH]; simpl; [reflexivity|].
  destruct (Enabled b); simpl; [reflexivity | exact IH].
Qed.

Lemma hasEnabled_false (s : settings) :
  hasEnabled (elems (SMTP s)) = false <-> enabledBlocks s = 0%nat.
Proof.
  unfold enabledBlocks. rewrite hasEnabled_filter.
  destruct (List.length (filter Enabled (elems (SMTP s)))); simpl; split;
    congruence.
Qed.

(** The update handler in closed form, one case per way through it. *)
Lemma update_run (e : env) (req : body) (st : state) :
  run (handleUpdateSettings e req) st =
  match decodeBody req with
  | None =>
      (BindError,
       mkState (stored st) (needsRestart st) (goroutines st)
               (calls st ++ [CallBind]))
  | Some s =>
      let b := encodeSettings s in
      if hasEnabled (elems (SMTP s)) then
        match execErr e with
        | Some err =>
            (HTTPError StatusInternalServerError
               ("Error updating settings: " ++ pqErrMsg err),
             mkState (stored st) (needsRestart st) (goroutines st)
                     (calls st ++ [CallBind; CallMarshal; CallExec b]))
        | None =>
            if hasRunningCampaigns e then
              (JSON StatusOK (OkNeedsRestart true),
               mkState b true (goroutines st)
                       (calls st ++ [CallBind; CallMarshal; CallExec b;
                                     CallHasRunningCampaigns; CallLock;
                                     CallUnlock]))
            else
              (JSON StatusOK OkTrue,
               mkState b (needsRestart st) (goroutines st ++ [reloadTask])
                       (calls st ++ [CallBind; CallMarshal; CallExec b;
                                     CallHasRunningCampaigns;
                                     CallGo reloadTask]))
        end
      else
        (HTTPError StatusBadRequest "At least one SMTP block should be enabled",
         mkState (stored st) (needsRestart st) (goroutines st)
                 (calls st ++ [CallBind; CallMarshal]))
  end.
Proof.
  unfold run, handleUpdateSettings, Bind, bind, record, ret; simpl.
  destruct (decodeBody req) as [s|]; simpl; [|reflexivity].
  destruct (hasEnabled (elems (SMTP s))); simpl.
  - unfold UpdateSettings, HasRunningCampaigns, go, setNeedsRestart, bind,
      record, ret, reply; simpl.
    destruct (execErr e); simpl.
    + rewrite <- !app_assoc. reflexivity.
    + destruct (hasRunningCampaigns e); simpl; rewrite <- !app_assoc;
        reflexivity.
  - unfold reply. rewrite <- !app_assoc. reflexivity.
Qed.

(** The read handler in closed form. *)
Lemma get_run (e : env) (st : state) :
  run (handleGetSettings e) st =
  match getErr e with
  | Some err =>
      (HTTPError StatusInternalServerError
         ("Error fetching settings: " ++ pqErrMsg err),
       mkState (stored st) (needsRestart st) (goroutines st)
               (calls st ++ [CallGet]))
  | None =>
      let st' := mkState (stored st) (needsRestart st) (goroutines st)
                         (calls st ++ [CallGet; CallUnmarshal]) in
      match Unmarshal (stored st) with
      | None =>
          (HTTPError StatusInternalServerError
             ("Error parsing settings: " ++ unmarshalErr (stored st)), st')
      | Some s =>
          (JSON StatusOK
             (OkSettings (set_UploadS3AwsSecretAccessKey ""
                            (set_SMTP (clearPasswords (SMTP s)) s))), st')
      end
  end.
Proof.
  unfold run, handleGetSettings, GetSettings, bind, record, ret, reply; simpl.
  destruct (getErr e); simpl; [reflexivity|].
  destruct (Unmarshal (stored st)); simpl; rewrite <- !app_assoc; reflexivity.
Qed.

Lemma update_outcome (e : env) (req : body) (st : state) :
  succeeded (fst (run (handleUpdateSettings e req) st)) = true \/
  exists k, fails (fst (run (handleUpdateSettings e req) st)) k.
Proof.
  rewrite update_run.
  destruct (decodeBody req) as [s|]; simpl.
  - destruct (hasEnabled (elems (SMTP s))).
    + destruct (execErr e).
      * right. exists StorageError. apply fails_storage.
      * destruct (hasRunningCampaigns e); left; reflexivity.
    + right. exists ValidationError. apply fails_validation.
  - right. exists ParseError. apply fails_parse.
Qed.

(** C1: a successful update (the body decodes to [s], [s] encodes to [b], a
    block is enabled and the store accepts [b]) under reported activity sets
    [needsRestart], answers [needs_restart = true] and starts no goroutine;
    without activity it starts exactly the one reload goroutine, answers plain
    success and leaves [needsRestart] as it was. *)
Theorem C1_reload_decision (e : env) (req : body) (st : state)
    (s : settings) (b : json) :
  decodeBody req = Some s ->
  Marshal s = inr b ->
  enabledBlocks s <> 0%nat ->
  execErr e = None ->
  let r := fst (run (handleUpdateSettings e req) st) in
  let st' := snd (run (handleUpdateSettings e req) st) in
  stored st' = b /\
  (hasRunningCampaigns e = true ->
     needsRestart st' = true /\
     r = JSON StatusOK (OkNeedsRestart true) /\
     goroutines st' = goroutines st) /\
  (hasRunningCampaigns e = false ->
     goroutines st' = (goroutines st ++ [[After 500; Send SIGHUP]])%list /\
     r = JSON StatusOK OkTrue /\
     needsRestart st' = needsRestart st).
Proof.
  intros Hdec Hm Hen Hex. cbv zeta. rewrite update_run, Hdec. cbv zeta.
  assert (Hhas : hasEnabled (elems (SMTP s)) = true).
  { destruct (hasEnabled (elems (SMTP s))) eqn:E; [reflexivity|].
    apply hasEnabled_false in E. contradiction. }
  rewrite Hhas, Hex. unfold Marshal in Hm. injection Hm as <-.
  destruct (hasRunningCampaigns e); simpl; repeat split; try discriminate;
    intros _; repeat split.
Qed.

(** C3: once the body has decoded to [s], the update fails with a
    ValidationError exactly when no block of [s] is enabled, and then the
    stored document is the one from before. *)
Theorem C3_validation_iff (e : env) (req : body) (st : state) (s : settings) :
  decodeBody req = Some s ->
  (fails (fst (run (handleUpdateSettings e req) st)) ValidationError <->
   enabledBlocks s = 0%nat) /\
  (enabledBlocks s = 0%nat ->
   stored (snd (run (handleUpdateSettings e req) st)) = stored st).
Proof.
  intros Hdec. rewrite update_run, Hdec. cbv zeta.
  rewrite <- hasEnabled_false.
  destruct (hasEnabled (elems (SMTP s))).
  - split; [|discriminate].
    split; [|discriminate].
    destruct (execErr e); [|destruct (hasRunningCampaigns e)]; simpl;
      intros H; inversion H.
  - simpl. split; [|reflexivity].
    split; [reflexivity|]. intros _. apply fails_validation.
Qed.

(** C4: an update that ends in a ParseError, ValidationError, EncodeError or
    StorageError leaves the stored document, the flag and the started
    goroutines as they were. *)
Theorem C4_failure_no_effect (e : env) (req : body) (st : state) (k : failure) :
  fails (fst (run (handleUpdateSettings e req) st)) k ->
  stored (snd (run (handleUpdateSettings e req) st)) = stored st /\
  needsRestart (snd (run (handleUpdateSettings e req) st)) = needsRestart st /\
  goroutines (snd (run (handleUpdateSettings e req) st)) = goroutines st.
Proof.
  rewrite update_run.
  destruct (decodeBody req) as [s|]; cbv zeta; [|simpl; auto].
  destruct (hasEnabled (elems (SMTP s))); [|simpl; auto].
  destruct (execErr e); [simpl; auto|].
  destruct (hasRunningCampaigns e); simpl; intros H; inversion H.
Qed.

(** C5, as the code has it: the re-encoding comes before the validation
    check.  Every update whose body decodes calls [json.Marshal] right after
    [c.Bind], also when the document then fails validation; for such a
    document nothing further is called and the response is the validation
    error; the store is called only for a document with an enabled block;
    and, the re-encoding of a decoded document never failing, no such update
    ends in an EncodeError. *)
Theorem C5_marshal_before_validation (e : env) (req : body) (st : state)
    (s : settings) :
  decodeBody req = Some s ->
  exists rest,
    calls (snd (run (handleUpdateSettings e req) st)) =
      (calls st ++ CallBind :: CallMarshal :: rest)%list /\
    (enabledBlocks s = 0%nat ->
       rest = [] /\
       fails (fst (run (handleUpdateSettings e req) st)) ValidationError) /\
    (forall b, In (CallExec b) rest -> enabledBlocks s <> 0%nat) /\
    ~ fails (fst (run (handleUpdateSettings e req) st)) EncodeError.
Proof.
  intros Hdec. rewrite update_run, Hdec. cbv zeta.
  destruct (hasEnabled (elems (SMTP s))) eqn:E.
  - assert (Hne : enabledBlocks s <> 0%nat).
    { intros H. apply hasEnabled_false in H. congruence. }
    destruct (execErr e); [|destruct (hasRunningCampaigns e)]; simpl;
      eexists; (split; [reflexivity|]);
      (split; [intros H0; contradiction|]);
      (split; [intros b _; exact Hne|]);
      intros H; inversion H.
  - simpl. exists []. split; [reflexivity|].
    split; [intros _; split; [reflexivity | apply fails_validation]|].
    split; [intros b []|].
    intros H; inversion H.
Qed.

(** C9, as the code has it: an update that fails validation answers the
    client error whose message is "At least one SMTP block should be
    enabled". *)
Theorem C9_validation_message (e : env) (req : body) (st : state) :
  fails (fst (run (handleUpdateSettings e req) st)) ValidationError ->
  fst (run (handleUpdateSettings e req) st) =
    HTTPError StatusBadRequest "At least one SMTP block should be enabled".
Proof.
  rewrite update_run.
  destruct (decodeBody req) as [s|]; cbv zeta; [|simpl; intros H; inversion H].
  destruct (hasEnabled (elems (SMTP s))); [|reflexivity].
  destruct (execErr e); [|destruct (hasRunningCampaigns e)]; simpl;
    intros H; inversion H.
Qed.

Lemma serve_needsRestart (r : request) (st : state) :
  needsRestart (snd (serve r st)) =
  needsRestart st || writeSucceedsDuringActivity r.
Proof.
  destruct r as [e|e req]; simpl.
  - rewrite get_run, orb_false_r.
    destruct (getErr e); [reflexivity|].
    cbv zeta. destruct (Unmarshal (stored st)); reflexivity.
  - rewrite update_run.
    destruct (decodeBody req) as [s|]; cbv zeta;
      [|simpl; rewrite orb_false_r; reflexivity].
    unfold enabledBlocks. rewrite <- hasEnabled_filter.
    destruct (hasEnabled (elems (SMTP s)));
      [|destruct (execErr e); simpl; rewrite orb_false_r; reflexivity].
    destruct (execErr e); [simpl; rewrite orb_false_r; reflexivity|].
    destruct (hasRunningCampaigns e); simpl;
      [rewrite orb_true_r | rewrite orb_false_r]; reflexivity.
Qed.

(** C6: the flag is false at process start, and after any sequence of reads
    and updates it is the flag from before or-ed with "some update of the
    sequence succeeded while activity was reported": it is only ever set,
    and only by such an update, it is never cleared, and setting it again
    changes nothing. *)
Theorem C6_needsRestart_monotone (doc : json) (rs : list request) (st : state) :
  needsRestart (processStart doc) = false /\
  needsRestart (serveAll rs st) =
    needsRestart st || existsb writeSucceedsDuringActivity rs /\
  Bool.le (needsRestart st) (needsRestart (serveAll rs st)).
Proof.
  split; [reflexivity|].
  assert (H : needsRestart (serveAll rs st) =
              needsRestart st || existsb writeSucceedsDuringActivity rs).
  { revert st. induction rs as [|r rs IH]; intros st; simpl.
    - rewrite orb_false_r. reflexivity.
    - rewrite IH, serve_needsRestart, orb_assoc. reflexivity. }
  split; [exact H|]. rewrite H.
  destruct (needsRestart st); simpl; trivial.
Qed.

Lemma update_length {A} (i : nat) (f : A -> A) (l : list A) :
  List.length (update i f l) = List.length l.
Proof.
  revert i. induction l as [|x r IH]; intros [|i]; simpl; auto.
Qed.

Lemma update_app {A} (f : A -> A) (l1 : list A) (x : A) (l2 : list A) :
  update (List.length l1) f (l1 ++ x :: l2) = (l1 ++ f x :: l2)%list.
Proof.
  induction l1 as [|y l1 IH]; simpl; [reflexivity|]. rewrite IH. reflexivity.
Qed.

Lemma clearPasswordsFrom_map (l1 l2 : list smtpBlock) :
  clearPasswordsFrom (List.length l2) (List.length l1) (l1 ++ l2) =
  (l1 ++ map (set_Password "") l2)%list.
Proof.
  revert l1. induction l2 as [|x l2 IH]; intros l1; simpl; [reflexivity|].
  rewrite update_app.
  replace (l1 ++ set_Password "" x :: l2)%list
    with ((l1 ++ [set_Password "" x]) ++ l2)%list
    by (rewrite <- app_assoc; reflexivity).
  replace (Datatypes.S (List.length l1))
    with (List.length (l1 ++ [set_Password "" x]))
    by (rewrite length_app; simpl; lia).
  rewrite IH, <- app_assoc. reflexivity.
Qed.

Lemma clearPasswords_elems (sl : slice smtpBlock) :
  elems (clearPasswords sl) = map (set_Password "") (elems sl).
Proof.
  destruct sl as [|es sp]; simpl; [reflexivity|].
  exact (clearPasswordsFrom_map [] es).
Qed.

(** C2: a document [s] the read handler returns has an empty password in
    every SMTP block and an empty S3 secret key; every other field, and
    every other field of every block, is that of the decoded stored
    document [s0]; the stored document is not changed. *)
Theorem C2_read_scrubs_secrets (e : env) (st : state) (code : Z) (s : settings) :
  fst (run (handleGetSettings e) st) = JSON code (OkSettings s) ->
  exists s0,
    Unmarshal (stored st) = Some s0 /\
    Forall (fun b => Password b = "") (elems (SMTP s)) /\
    UploadS3AwsSecretAccessKey s = "" /\
    sameButSecrets s0 s /\
    Forall2 sameButPassword (elems (SMTP s0)) (elems (SMTP s)) /\
    (SMTP s = SNil <-> SMTP s0 = SNil) /\
    stored (snd (run (handleGetSettings e) st)) = stored st.
Proof.
  rewrite get_run. destruct (getErr e); simpl; [discriminate|].
  destruct (Unmarshal (stored st)) as [s0|]; simpl; [|discriminate].
  intros H. injection H as _ <-. exists s0.
  split; [reflexivity|].
  destruct s0; simpl.
  rewrite clearPasswords_elems.
  split.
  { apply Forall_forall. intros b Hb. apply in_map_iff in Hb.
    destruct Hb as (b0 & <- & _). destruct b0; reflexivity. }
  split; [reflexivity|].
  split; [unfold sameButSecrets; simpl; repeat split|].
  split.
  { induction (elems SMTP0) as [|b0 l IH]; simpl; constructor; [|exact IH].
    destruct b0; unfold sameButPassword; simpl; repeat split. }
  split; [|reflexivity].
  destruct SMTP0; simpl; split; congruence.
Qed.

(** * Properties of the codec *)

Lemma field_names_ascii :
  Forall (fun n => forallb Fold.isAscii (list_ascii_of_string n) = true)
         (map smtpFieldName smtpFields ++ map settingsFieldName settingsFields).
Proof. repeat constructor. Qed.

(** ** Maps *)

Lemma ltKey_trans (a b c : string) : ltKey a b -> ltKey b c -> ltKey a c.
Proof.
  unfold ltKey. intros H1 H2.
  apply String_as_OT.cmp_lt. apply String_as_OT.cmp_lt in H1, H2.
  eapply String_as_OT.lt_trans; eassumption.
Qed.

Lemma compare_Gt_lt (a b : string) : String.compare a b = Gt -> ltKey b a.
Proof.
  unfold ltKey. intros H. rewrite String.compare_antisym, H. reflexivity.
Qed.

Lemma mapInsert_keys_Forall {V} (P : string -> Prop) (k : string) (v : V)
    (m : gomap V) :
  P k -> Forall P (keys m) -> Forall P (keys (mapInsert k v m)).
Proof.
  intros Hk. induction m as [|[k' v'] m IH]; simpl; intros H.
  - constructor; [exact Hk | constructor].
  - inversion H as [|? ? Hk' Hm]; subst.
    destruct (String.compare k k'); simpl; repeat (constructor; auto).
Qed.

Lemma mapInsert_values_Forall {V} (P : V -> Prop) (k : string) (v : V)
    (m : gomap V) :
  P v -> Forall (fun kv => P (snd kv)) m ->
  Forall (fun kv => P (snd kv)) (mapInsert k v m).
Proof.
  intros Hv. induction m as [|[k' v'] m IH]; simpl; intros H.
  - constructor; [exact Hv | constructor].
  - inversion H as [|? ? Hk' Hm]; subst.
    destruct (String.compare k k'); simpl; repeat (constructor; auto).
Qed.

Lemma mapInsert_sorted {V} (k : string) (v : V) (m : gomap V) :
  StronglySorted ltKey (keys m) ->
  StronglySorted ltKey (keys (mapInsert k v m)).
Proof.
  induction m as [|[k' v'] m IH]; simpl; intros H.
  - constructor; constructor.
  - inversion H as [|? ? Hs Hall]; subst.
    destruct (String.compare k k') eqn:E; simpl.
    + apply String.compare_eq_iff in E. subst k'.
      constructor; assumption.
    + constructor; [exact H|].
      constructor; [exact E|].
      eapply Forall_impl; [|exact Hall].
      intros a Ha. exact (ltKey_trans _ _ _ E Ha).
    + constructor; [apply IH; exact Hs|].
      apply (mapInsert_keys_Forall (fun a => ltKey k' a) k v m);
        [apply compare_Gt_lt; exact E | exact Hall].
Qed.

Lemma mapInsert_append {V} (k : string) (v : V) (m : gomap V) :
  Forall (fun a => ltKey a k) (keys m) ->
  mapInsert k v m = (m ++ [(k, v)])%list.
Proof.
  induction m as [|[k' v'] m IH]; simpl; intros H; [reflexivity|].
  inversion H as [|? ? Hk Hm]; subst.
  unfold ltKey in Hk. rewrite String.compare_antisym, Hk. simpl.
  rewrite IH by exact Hm. reflexivity.
Qed.

Lemma sorted_app_before {A} (R : A -> A -> Prop) (l1 : list A) (x : A)
    (l2 : list A) :
  StronglySorted R (l1 ++ x :: l2) -> Forall (fun a => R a x) l1.
Proof.
  induction l1 as [|a l1 IH]; simpl; intros H; [constructor|].
  inversion H as [|? ? Hs Hall]; subst.
  constructor; [|apply IH; exact Hs].
  rewrite Forall_forall in Hall. apply Hall.
  apply in_or_app. right. left. reflexivity.
Qed.

(** ** interface{} values *)

Lemma valueInterface_JArr (l : list json) :
  valueInterface (JArr l) = (l' <-? arrayInterface l ;; Some (ISlice l')).
Proof.
  simpl.
  match goal with |- obind ?a _ = _ => replace a with (arrayInterface l) end;
    [reflexivity|].
  induction l as [|x r IH]; simpl; [reflexivity|]. rewrite IH. reflexivity.
Qed.

Lemma valueInterface_JObj (ms : list (string * json)) :
  valueInterface (JObj ms) = (m <-? objectInterface ms [] ;; Some (IMap m)).
Proof.
  simpl.
  match goal with |- obind ?a _ = _ => replace a with (objectInterface ms []) end;
    [reflexivity|].
  generalize (@nil (string * iface)).
  induction ms as [|x r IH]; intros m; simpl; [reflexivity|].
  destruct (valueInterface (snd x)); simpl; [apply IH | reflexivity].
Qed.

Lemma valueInterface_wf (j : json) (v : iface) :
  valueInterface j = Some v -> wfIface v.
Proof.
  revert v. induction j as [| b | n | s | l IH | ms IH] using json_ind; intros v.
  - simpl. intros H; injection H as <-. constructor.
  - simpl. intros H; injection H as <-. constructor.
  - simpl. destruct (parseFloat n); simpl; intros H; [|discriminate].
    injection H as <-. constructor.
  - simpl. intros H; injection H as <-. constructor.
  - rewrite valueInterface_JArr.
    destruct (arrayInterface l) as [l'|] eqn:E; simpl; intros H; [|discriminate].
    injection H as <-. constructor.
    revert l' E. induction IH as [|x r Hx _ IHr]; simpl; intros l' E.
    + injection E as <-. constructor.
    + destruct (valueInterface x) as [vx|]; simpl in E; [|discriminate].
      destruct (arrayInterface r) as [r'|]; simpl in E; [|discriminate].
      injection E as <-. constructor; [apply Hx; reflexivity | apply IHr; reflexivity].
  - rewrite valueInterface_JObj.
    destruct (objectInterface ms []) as [m|] eqn:E; simpl; intros H; [|discriminate].
    injection H as <-.
    assert (G : forall m0 m1,
               StronglySorted ltKey (keys m0) ->
               Forall (fun kv => wfIface (snd kv)) m0 ->
               objectInterface ms m0 = Some m1 ->
               StronglySorted ltKey (keys m1) /\
               Forall (fun kv => wfIface (snd kv)) m1).
    { clear m E. induction IH as [|x r Hx _ IHr]; simpl; intros m0 m1 Hs Hw E.
      - injection E as <-. split; assumption.
      - destruct (valueInterface (snd x)) as [vx|]; simpl in E; [|discriminate].
        apply IHr in E; [exact E | apply mapInsert_sorted; exact Hs |].
        apply mapInsert_values_Forall; [apply Hx; reflexivity | exact Hw]. }
    destruct (G [] m) as [Hs Hw]; [constructor | constructor | exact E |].
    constructor; assumption.
Qed.


Lemma objectInterface_sorted (m2 : gomap iface) :
  Forall (fun kv => valueInterface (encodeInterface (snd kv)) = Some (snd kv)) m2 ->
  forall m1,
  StronglySorted ltKey (keys (m1 ++ m2)%list) ->
  objectInterface (map (fun kv => (fst kv, encodeInterface (snd kv))) m2) m1 =
    Some (m1 ++ m2)%list.
Proof.
  induction 1 as [|[k v] m2 Hv _ IH]; intros m1 Hs; simpl.
  - rewrite app_nil_r. reflexivity.
  - simpl in Hv. rewrite Hv. simpl.
    rewrite mapInsert_append.
    + rewrite IH; rewrite <- app_assoc; [reflexivity | exact Hs].
    + unfold keys in Hs. rewrite map_app in Hs. simpl in Hs.
      exact (sorted_app_before _ _ _ _ Hs).
Qed.

Lemma valueInterface_encodeInterface (v : iface) :
  wfIface v -> valueInterface (encodeInterface v) = Some v.
Proof.
  induction v as [| b | f | s | l IH | m IH] using iface_ind; intros W.
  - reflexivity.
  - reflexivity.
  - simpl. rewrite parseFloat_formatFloat. reflexivity.
  - reflexivity.
  - inversion W as [| | | | l0 Wl |]; subst.
    change (encodeInterface (ISlice l)) with (JArr (map encodeInterface l)).
    rewrite valueInterface_JArr.
    assert (E : arrayInterface (map encodeInterface l) = Some l).
    { induction IH as [|x r Hx _ IHr]; simpl; [reflexivity|].
      inversion Wl; subst. rewrite Hx by assumption. simpl.
      rewrite IHr by (try constructor; assumption). reflexivity. }
    rewrite E. reflexivity.
  - inversion W as [| | | | | m0 Hs Wm]; subst.
    change (encodeInterface (IMap m))
      with (JObj (map (fun kv => (fst kv, encodeInterface (snd kv))) m)).
    rewrite valueInterface_JObj.
    rewrite (objectInterface_sorted m); [reflexivity | | exact Hs].
    rewrite Forall_forall in *. intros kv Hin. apply IH; auto.
Qed.

(** ** map[string]string *)

Lemma storeEntries_sorted (ms : list (string * json)) (m0 m1 : gomap string) :
  StronglySorted ltKey (keys m0) ->
  storeEntries ms m0 = Some m1 ->
  StronglySorted ltKey (keys m1).
Proof.
  revert m0. induction ms as [|[k x] ms IH]; simpl; intros m0 Hs E.
  - injection E as <-. exact Hs.
  - destruct (storeString "" x) as [v|]; simpl in E; [|discriminate].
    apply IH in E; [exact E | apply mapInsert_sorted; exact Hs].
Qed.

Lemma storeMap_wf (cur m : option (gomap string)) (j : json) :
  wfMap cur -> storeMap cur j = Some m -> wfMap m.
Proof.
  intros W. destruct j; simpl; try discriminate.
  - intros E; injection E as <-. exact I.
  - destruct (storeEntries ms _) as [m1|] eqn:E; simpl; [|discriminate].
    intros H; injection H as <-. simpl.
    apply storeEntries_sorted in E; [exact E|].
    destruct cur; [exact W | constructor].
Qed.

Lemma storeEntries_encode (m2 m1 : gomap string) :
  StronglySorted ltKey (keys (m1 ++ m2)%list) ->
  storeEntries (map (fun kv => (fst kv, encodeString (snd kv))) m2) m1 =
    Some (m1 ++ m2)%list.
Proof.
  revert m1. induction m2 as [|[k v] m2 IH]; intros m1 Hs; simpl.
  - rewrite app_nil_r. reflexivity.
  - rewrite mapInsert_append.
    + rewrite IH; rewrite <- app_assoc; [reflexivity | exact Hs].
    + unfold keys in Hs. rewrite map_app in Hs. simpl in Hs.
      exact (sorted_app_before _ _ _ _ Hs).
Qed.

Lemma storeMap_encodeMap (m : option (gomap string)) :
  wfMap m -> storeMap None (encodeMap m) = Some m.
Proof.
  destruct m as [m|]; simpl; intros W; [|reflexivity].
  rewrite (storeEntries_encode m []); [reflexivity | exact W].
Qed.

(** ** Slices *)

Section SliceFacts.
Variable A : Type.
Variable zero : A.
Variable dec : A -> json -> option A.
Variable enc : A -> json.
Variable wfA : A -> Prop.

Hypothesis wf_zero : wfA zero.
Hypothesis wf_dec : forall cur j x, wfA cur -> dec cur j = Some x -> wfA x.

Lemma arrayLoop_wf (js : list json) :
  forall done rest sl,
  Forall wfA done -> Forall wfA rest ->
  arrayLoop zero dec done rest js = Some sl ->
  Forall wfA (backing sl).
Proof.
  induction js as [|j js IH]; simpl; intros done rest sl Hd Hr E.
  - injection E as <-. simpl. apply Forall_app. split; [|exact Hr].
    apply Forall_rev. exact Hd.
  - destruct rest as [|c r].
    + destruct (dec zero j) as [x|] eqn:Ex; simpl in E; [|discriminate].
      apply IH in E; [exact E | |].
      * constructor; [eapply wf_dec; eauto | exact Hd].
      * apply Forall_forall. intros y Hy. apply repeat_spec in Hy. subst y.
        exact wf_zero.
    + inversion Hr; subst.
      destruct (dec c j) as [x|] eqn:Ex; simpl in E; [|discriminate].
      apply IH in E; [exact E | | assumption].
      constructor; [eapply wf_dec; eauto | exact Hd].
Qed.

Lemma storeSlice_wf (cur sl : slice A) (j : json) :
  Forall wfA (backing cur) ->
  storeSlice zero dec cur j = Some sl ->
  Forall wfA (backing sl).
Proof.
  intros W. destruct j; simpl; try discriminate.
  - intros E; injection E as <-. constructor.
  - destruct l as [|j js].
    + intros E; injection E as <-. constructor.
    + intros E. eapply arrayLoop_wf; [| |exact E]; [constructor | exact W].
Qed.

Hypothesis dec_enc : forall a,
  wfA a -> exists a', dec zero (enc a) = Some a' /\ enc a' = enc a.

(** Decoding an encoded list into fresh cells gives a list that encodes
    to the same. *)
Lemma arrayLoop_encode (l : list A) :
  Forall wfA l ->
  forall done rest,
  Forall (fun c => c = zero) rest ->
  exists l' rest',
    arrayLoop zero dec done rest (map enc l) = Some (SMk (rev done ++ l') rest') /\
    map enc l' = map enc l.
Proof.
  induction 1 as [|a l Ha _ IH]; intros done rest Hr; simpl.
  - exists [], rest. rewrite app_nil_r. split; reflexivity.
  - destruct (dec_enc a Ha) as (a' & Ea & Eq).
    assert (G : forall rest',
               Forall (fun c => c = zero) rest' ->
               exists l' rest'',
                 arrayLoop zero dec (a' :: done) rest' (map enc l) =
                   Some (SMk (rev done ++ a' :: l') rest'') /\
                 map enc (a' :: l') = enc a :: map enc l).
    { intros rest' Hr'. destruct (IH (a' :: done) rest' Hr') as (l' & r'' & E & M).
      exists l', r''. simpl in E. rewrite <- app_assoc in E. simpl in E.
      split; [exact E|]. simpl. rewrite Eq, M. reflexivity. }
    destruct rest as [|c r].
    + rewrite Ea. simpl.
      destruct (G (repeat zero (growCap (List.length done) - List.length done - 1)))
        as (l' & r'' & E & M).
      { apply Forall_forall. intros y Hy. apply repeat_spec in Hy. exact Hy. }
      exists (a' :: l'), r''. split; assumption.
    + inversion Hr; subst. rewrite Ea. simpl.
      destruct (G r) as (l' & r'' & E & M); [assumption|].
      exists (a' :: l'), r''. split; assumption.
Qed.

Lemma storeSlice_encodeSlice (sl : slice A) :
  Forall wfA (elems sl) ->
  exists sl',
    storeSlice zero dec SNil (encodeSlice enc sl) = Some sl' /\
    encodeSlice enc sl' = encodeSlice enc sl.
Proof.
  destruct sl as [|es sp]; simpl; intros W.
  - exists SNil. split; reflexivity.
  - destruct es as [|a es]; simpl.
    + exists (SMk [] []). split; reflexivity.
    + destruct (arrayLoop_encode (a :: es) W [] []) as (l' & r' & E & M);
        [constructor|].
      simpl in E, M. exists (SMk l' r'). split; [exact E|].
      simpl. rewrite M. reflexivity.
Qed.

(** Decoding an array into a nil slice decodes every element into a zero
    cell. *)
Lemma arrayLoop_fresh (js : list json) :
  forall done rest sl,
  Forall (fun c => c = zero) rest ->
  arrayLoop zero dec done rest js = Some sl ->
  exists l, elems sl = (rev done ++ l)%list /\
            Forall2 (fun j x => dec zero j = Some x) js l.
Proof.
  induction js as [|j js IH]; simpl; intros done rest sl Hr E.
  - injection E as <-. exists []. simpl. rewrite app_nil_r. split; constructor.
  - assert (G : forall x rest',
               dec zero j = Some x ->
               Forall (fun c => c = zero) rest' ->
               arrayLoop zero dec (x :: done) rest' js = Some sl ->
               exists l, elems sl = (rev done ++ l)%list /\
                         Forall2 (fun j x => dec zero j = Some x) (j :: js) l).
    { intros x rest' Ex Hr' E'. destruct (IH _ _ _ Hr' E') as (l & El & F).
      exists (x :: l). simpl in El. rewrite <- app_assoc in El.
      split; [exact El | constructor; assumption]. }
    destruct rest as [|c r].
    + destruct (dec zero j) as [x|] eqn:Ex; simpl in E; [|discriminate].
      eapply G; [reflexivity | | exact E].
      apply Forall_forall. intros y Hy. apply repeat_spec in Hy. exact Hy.
    + inversion Hr; subst.
      destruct (dec zero j) as [x|] eqn:Ex; simpl in E; [|discriminate].
      eapply G; [reflexivity | eassumption | exact E].
Qed.

End SliceFacts.


Lemma Forall_backing_elems {A} (P : A -> Prop) (sl : slice A) :
  Forall P (backing sl) -> Forall P (elems sl).
Proof.
  destruct sl as [|es sp]; simpl; intros H; [constructor|].
  apply Forall_app in H. tauto.
Qed.

(** ** Structs *)

Section StructFacts.
Variable F : Type.
Variable T : Type.
Variable fields : list F.
Variable name : F -> string.
Variable store : F -> json -> T -> option T.

Lemma objectLoop_known (k : string) (x : json) (ms : list (string * json))
    (s s1 : T) (f : F) :
  findField fields name k = Some f ->
  store f x s = Some s1 ->
  objectLoop fields name store ((k, x) :: ms) s =
  objectLoop fields name store ms s1.
Proof.
  intros Hf Hs. simpl. rewrite Hf, Hs. reflexivity.
Qed.

Lemma objectLoop_app (ms1 ms2 : list (string * json)) (s : T) :
  objectLoop fields name store (ms1 ++ ms2) s =
  (s1 <-? objectLoop fields name store ms1 s ;;
   objectLoop fields name store ms2 s1).
Proof.
  revert s. induction ms1 as [|[k x] ms1 IH]; intros s; simpl; [reflexivity|].
  destruct (findField fields name k) as [f|]; [|apply IH].
  destruct (store f x s) as [s1|]; simpl; [apply IH | reflexivity].
Qed.

(** A property every store keeps is kept by the whole object. *)
Lemma objectLoop_inv (P : T -> Prop) :
  (forall f x s s', P s -> store f x s = Some s' -> P s') ->
  forall ms s s',
  P s -> objectLoop fields name store ms s = Some s' -> P s'.
Proof.
  intros Hstep. induction ms as [|[k x] ms IH]; simpl; intros s s' Hs E.
  - injection E as <-. exact Hs.
  - destruct (findField fields name k) as [f|]; [|eapply IH; eauto].
    destruct (store f x s) as [s1|] eqn:E1; simpl in E; [|discriminate].
    eapply IH; [|exact E]. eapply Hstep; eauto.
Qed.

(** A property every store into another field than [f0] keeps is kept by
    an object none of whose keys selects [f0]. *)
Lemma objectLoop_inv_except (f0 : F) (P : T -> Prop) :
  (forall f x s s', f <> f0 -> P s -> store f x s = Some s' -> P s') ->
  forall ms s s',
  Forall (fun kx => findField fields name (fst kx) <> Some f0) ms ->
  P s -> objectLoop fields name store ms s = Some s' -> P s'.
Proof.
  intros Hstep. induction ms as [|[k x] ms IH]; simpl; intros s s' Hno Hs E.
  - injection E as <-. exact Hs.
  - inversion Hno as [|? ? Hk Hms]; subst. simpl in Hk.
    destruct (findField fields name k) as [f|]; [|eapply IH; eauto].
    destruct (store f x s) as [s1|] eqn:E1; simpl in E; [|discriminate].
    eapply IH; [exact Hms | | exact E].
    eapply Hstep; [|exact Hs|exact E1]. congruence.
Qed.

End StructFacts.

Arguments inInt64 : simpl never.

Lemma storeInt_wf (cur z : Z) (j : json) :
  inInt64 cur = true -> storeInt cur j = Some z -> inInt64 z = true.
Proof.
  intros W. destruct j as [| | [n|t] | | |]; simpl; try discriminate.
  - intros E; injection E as <-. exact W.
  - destruct (inInt64 n) eqn:R; [|discriminate].
    intros E; injection E as <-. exact R.
Qed.

Lemma storeInt_encodeInt (z : Z) :
  inInt64 z = true -> storeInt 0 (encodeInt z) = Some z.
Proof. intros W. simpl. rewrite W. reflexivity. Qed.

(** ** SMTP blocks *)

Ltac store_cases E :=
  match type of E with
  | obind ?o _ = Some _ =>
      let x := fresh "x" in
      let Ex := fresh "Ex" in
      destruct o as [x|] eqn:Ex; simpl in E; [|discriminate];
      injection E as <-
  end.

Lemma storeSmtpField_wf (f : smtpField) (j : json) (b b' : smtpBlock) :
  wfSmtp b -> storeSmtpField f j b = Some b' -> wfSmtp b'.
Proof.
  unfold wfSmtp. destruct b; simpl. intros (Hp & Hc & Hr & Hh) E.
  assert (Hm : forall sl,
             storeSlice None storeMap EmailHeaders0 j = Some sl ->
             Forall wfMap (backing sl)).
  { intros sl. apply (storeSlice_wf _ None storeMap wfMap); [exact I| |exact Hh].
    intros cur j0 x0. apply storeMap_wf. }
  destruct f; simpl in E; store_cases E; simpl; repeat split;
    try assumption; try (eapply storeInt_wf; [|eassumption]; assumption).
  exact (Hm _ eq_refl).
Qed.

Lemma wfSmtp_zero : wfSmtp zeroSmtp.
Proof. unfold wfSmtp; simpl. repeat split; constructor. Qed.

Lemma storeSmtp_wf (cur b : smtpBlock) (j : json) :
  wfSmtp cur -> storeSmtp cur j = Some b -> wfSmtp b.
Proof.
  intros W. destruct j; simpl; try discriminate.
  - intros E; injection E as <-. exact W.
  - apply (objectLoop_inv _ _ smtpFields smtpFieldName storeSmtpField wfSmtp);
      [|exact W].
    intros f x s s'. apply storeSmtpField_wf.
Qed.

Lemma storeSmtp_encodeSmtp (b : smtpBlock) :
  wfSmtp b ->
  exists b', storeSmtp zeroSmtp (encodeSmtp b) = Some b' /\
             encodeSmtp b' = encodeSmtp b.
Proof.
  intros W. destruct b. destruct W as (Hp & Hc & Hr & Hh).
  simpl in Hp, Hc, Hr, Hh.
  destruct (storeSlice_encodeSlice _ None storeMap encodeMap wfMap) with
    (sl := EmailHeaders0) as (eh & Eeh & Meh).
  { intros a Wa. exists a. split; [apply storeMap_encodeMap; exact Wa | reflexivity]. }
  { apply Forall_backing_elems. exact Hh. }
  eexists. split.
  - unfold storeSmtp, storeStruct, encodeSmtp, zeroSmtp.
    cbn [Enabled Host HelloHostname Port AuthProtocol Username Password
         EmailHeaders MaxConns MaxMsgRetries IdleTimeout WaitTimeout
         TLSEnabled TLSSkipVerify].
    do 14 (erewrite objectLoop_known;
           [ | reflexivity
             | cbn [storeSmtpField Enabled Host HelloHostname Port AuthProtocol
                    Username Password EmailHeaders MaxConns MaxMsgRetries
                    IdleTimeout WaitTimeout TLSEnabled TLSSkipVerify];
               rewrite ?storeInt_encodeInt by assumption; rewrite ?Eeh;
               simpl; reflexivity ]).
    reflexivity.
  - unfold encodeSmtp.
    cbn [Enabled Host HelloHostname Port AuthProtocol Username Password
         EmailHeaders MaxConns MaxMsgRetries IdleTimeout WaitTimeout
         TLSEnabled TLSSkipVerify].
    rewrite Meh. reflexivity.
Qed.


(** ** The settings document *)

Lemma storeInterface_wf (cur x : iface) (j : json) :
  wfIface cur -> storeInterface cur j = Some x -> wfIface x.
Proof. intros _. apply valueInterface_wf. Qed.

Lemma storeSettingsField_wf (f : settingsField) (j : json) (s s' : settings) :
  wfSettings s -> storeSettingsField f j s = Some s' -> wfSettings s'.
Proof.
  unfold wfSettings. destruct s; simpl.
  intros (H1 & H2 & H3 & H4 & H5 & Hm & Hs) E.
  assert (Gm : forall sl,
             storeSlice INil storeInterface Messengers0 j = Some sl ->
             Forall wfIface (backing sl)).
  { intros sl. apply (storeSlice_wf _ INil storeInterface wfIface);
      [constructor | | exact Hm].
    intros cur j0 x0. apply storeInterface_wf. }
  assert (Gs : forall sl,
             storeSlice zeroSmtp storeSmtp SMTP0 j = Some sl ->
             Forall wfSmtp (backing sl)).
  { intros sl. apply (storeSlice_wf _ zeroSmtp storeSmtp wfSmtp);
      [exact wfSmtp_zero | | exact Hs].
    intros cur j0 x0. apply storeSmtp_wf. }
  destruct f; simpl in E; store_cases E; simpl; repeat split;
    try assumption; try (eapply storeInt_wf; [|eassumption]; assumption).
  - exact (Gm _ eq_refl).
  - exact (Gs _ eq_refl).
Qed.

Lemma wfSettings_zero : wfSettings zeroSettings.
Proof. unfold wfSettings; simpl. repeat split; constructor. Qed.

Lemma Unmarshal_wf (j : json) (s : settings) :
  Unmarshal j = Some s -> wfSettings s.
Proof.
  unfold Unmarshal, storeSettings. destruct j; simpl; try discriminate.
  - intros E; injection E as <-. exact wfSettings_zero.
  - apply (objectLoop_inv _ _ settingsFields settingsFieldName
             storeSettingsField wfSettings); [|exact wfSettings_zero].
    intros f x s0 s'. apply storeSettingsField_wf.
Qed.

Lemma storeStrings_encode (sl : slice string) :
  exists sl',
    storeSlice "" storeString SNil (encodeSlice encodeString sl) = Some sl' /\
    encodeSlice encodeString sl' = encodeSlice encodeString sl.
Proof.
  apply (storeSlice_encodeSlice _ "" storeString encodeString (fun _ => True)).
  - intros a _. exists a. split; reflexivity.
  - apply Forall_forall. intros; exact I.
Qed.

Ltac settings_projections :=
  cbn [AppRootURL AppLogoURL AppFaviconURL AppFromEmail AppNotifyEmails
       AppBatchSize AppConcurrency AppMaxSendErrors AppMessageRate Messengers
       PrivacyAllowBlacklist PrivacyAllowExport PrivacyAllowWipe
       PrivacyExportable SMTP UploadProvider UploadFilesystemUploadPath
       UploadFilesystemUploadURI UploadS3AwsAccessKeyID
       UploadS3AwsDefaultRegion UploadS3AwsSecretAccessKey UploadS3Bucket
       UploadS3BucketDomain UploadS3BucketPath UploadS3BucketType
       UploadS3Expiry].

(** Decoding an encoded document gives a document that encodes to the
    same. *)
Lemma Unmarshal_encodeSettings (s : settings) :
  wfSettings s ->
  exists s', Unmarshal (encodeSettings s) = Some s' /\
             encodeSettings s' = encodeSettings s.
Proof.
  intros W. destruct s. destruct W as (H1 & H2 & H3 & H4 & H5 & Hm & Hs).
  simpl in H1, H2, H3, H4, H5, Hm, Hs.
  destruct (storeStrings_encode AppNotifyEmails0) as (ne & Ene & Mne).
  destruct (storeStrings_encode PrivacyExportable0) as (pe & Epe & Mpe).
  destruct (storeSlice_encodeSlice _ INil storeInterface encodeInterface wfIface)
    with (sl := Messengers0) as (ms & Ems & Mms).
  { intros a Wa. exists a.
    split; [apply valueInterface_encodeInterface; exact Wa | reflexivity]. }
  { apply Forall_backing_elems. exact Hm. }
  destruct (storeSlice_encodeSlice _ zeroSmtp storeSmtp encodeSmtp wfSmtp)
    with (sl := SMTP0) as (bs & Ebs & Mbs).
  { exact storeSmtp_encodeSmtp. }
  { apply Forall_backing_elems. exact Hs. }
  eexists. split.
  - unfold Unmarshal, storeSettings, storeStruct, encodeSettings, zeroSettings.
    settings_projections.
    do 26 (erewrite objectLoop_known;
           [ | reflexivity
             | cbn [storeSettingsField]; settings_projections;
               rewrite ?storeInt_encodeInt by assumption;
               rewrite ?Ene, ?Epe, ?Ems, ?Ebs;
               simpl; reflexivity ]).
    reflexivity.
  - unfold encodeSettings. settings_projections.
    rewrite Mne, Mpe, Mms, Mbs. reflexivity.
Qed.

(** C8: sanitizing is idempotent: when a body [x] decodes and re-encodes to
    [y], then [y] decodes and re-encodes to [y] itself; this covers the
    messengers and the SMTP blocks. *)
Theorem C8_sanitize_idempotent (x y : json) :
  sanitize x = Some y -> sanitize y = Some y.
Proof.
  unfold sanitize, Marshal.
  destruct (Unmarshal x) as [s|] eqn:E; simpl; [|discriminate].
  intros H; injection H as <-.
  destruct (Unmarshal_encodeSettings s (Unmarshal_wf _ _ E)) as (s' & E' & M).
  rewrite E'. simpl. rewrite M. reflexivity.
Qed.


(** ** Omitted fields *)

Lemma storeSmtpField_keeps_zero (f g : smtpField) (x : json) (b b' : smtpBlock) :
  g <> f ->
  member (smtpFieldName f) (encodeSmtp b) = Some (smtpZeroJSON f) ->
  storeSmtpField g x b = Some b' ->
  member (smtpFieldName f) (encodeSmtp b') = Some (smtpZeroJSON f).
Proof.
  intros Hne Hz E. destruct b.
  destruct g; simpl in E; store_cases E; destruct f;
    first [ exact Hz | exfalso; apply Hne; reflexivity ].
Qed.

Lemma storeSmtp_omitted (bms : list (string * json)) (g : smtpField)
    (b : smtpBlock) :
  storeSmtp zeroSmtp (JObj bms) = Some b ->
  omits smtpFields smtpFieldName g bms ->
  member (smtpFieldName g) (encodeSmtp b) = Some (smtpZeroJSON g).
Proof.
  intros E Ho.
  apply (objectLoop_inv_except _ _ smtpFields smtpFieldName storeSmtpField g
           (fun b => member (smtpFieldName g) (encodeSmtp b) =
                     Some (smtpZeroJSON g)))
    with (ms := bms) (s := zeroSmtp); [| exact Ho | | exact E].
  - intros f x s s'. apply storeSmtpField_keeps_zero.
  - destruct g; reflexivity.
Qed.

Lemma storeSettingsField_keeps_zero (f g : settingsField) (x : json)
    (s s' : settings) :
  g <> f ->
  member (settingsFieldName f) (encodeSettings s) = Some (zeroJSON f) ->
  storeSettingsField g x s = Some s' ->
  member (settingsFieldName f) (encodeSettings s') = Some (zeroJSON f).
Proof.
  intros Hne Hz E. destruct s.
  destruct g; simpl in E; store_cases E; destruct f;
    first [ exact Hz | exfalso; apply Hne; reflexivity ].
Qed.

Lemma Unmarshal_omitted (ms : list (string * json)) (f : settingsField)
    (s : settings) :
  Unmarshal (JObj ms) = Some s ->
  omits settingsFields settingsFieldName f ms ->
  member (settingsFieldName f) (encodeSettings s) = Some (zeroJSON f).
Proof.
  intros E Ho.
  apply (objectLoop_inv_except _ _ settingsFields settingsFieldName
           storeSettingsField f
           (fun s => member (settingsFieldName f) (encodeSettings s) =
                     Some (zeroJSON f)))
    with (ms := ms) (s := zeroSettings); [| exact Ho | | exact E].
  - intros g x s0 s'. apply storeSettingsField_keeps_zero.
  - destruct f; reflexivity.
Qed.

Lemma storeSettingsField_keeps_SMTP (g : settingsField) (x : json)
    (s s' : settings) :
  g <> fSMTP -> storeSettingsField g x s = Some s' -> SMTP s' = SMTP s.
Proof.
  intros Hne E. destruct s.
  destruct g; simpl in E; store_cases E;
    first [ reflexivity | exfalso; apply Hne; reflexivity ].
Qed.

(** When one member of the body selects the SMTP list, and it is an array,
    the blocks of the decoded document are the elements of the array, each
    decoded into a zero block. *)
Lemma Unmarshal_single_smtp (ms1 ms2 : list (string * json)) (k : string)
    (blocks : list json) (s : settings) :
  Unmarshal (JObj (ms1 ++ (k, JArr blocks) :: ms2)) = Some s ->
  findField settingsFields settingsFieldName k = Some fSMTP ->
  omits settingsFields settingsFieldName fSMTP ms1 ->
  omits settingsFields settingsFieldName fSMTP ms2 ->
  exists sp,
    SMTP s = SMk (elems (SMTP s)) sp /\
    Forall2 (fun x b => storeSmtp zeroSmtp x = Some b) blocks (elems (SMTP s)).
Proof.
  unfold Unmarshal, storeSettings, storeStruct. intros E Hk Ho1 Ho2.
  rewrite objectLoop_app in E.
  destruct (objectLoop settingsFields settingsFieldName storeSettingsField
              ms1 zeroSettings) as [s1|] eqn:E1; simpl in E; [|discriminate].
  assert (Z1 : SMTP s1 = SNil).
  { apply (objectLoop_inv_except _ _ settingsFields settingsFieldName
             storeSettingsField fSMTP (fun s => SMTP s = SNil))
      with (ms := ms1) (s := zeroSettings); [| exact Ho1 | reflexivity | exact E1].
    intros g x s0 s' Hne Hz E0.
    rewrite (storeSettingsField_keeps_SMTP g x s0 s' Hne E0). exact Hz. }
  rewrite Hk in E.
  destruct (storeSettingsField fSMTP (JArr blocks) s1) as [s2|] eqn:E2;
    simpl in E; [|discriminate].
  assert (Z2 : SMTP s = SMTP s2).
  { apply (objectLoop_inv_except _ _ settingsFields settingsFieldName
             storeSettingsField fSMTP (fun s => SMTP s = SMTP s2))
      with (ms := ms2) (s := s2); [| exact Ho2 | reflexivity | exact E].
    intros g x s0 s' Hne Hz E0.
    rewrite (storeSettingsField_keeps_SMTP g x s0 s' Hne E0). exact Hz. }
  rewrite Z2. clear E Z2.
  destruct s1. simpl in Z1. subst.
  cbn [storeSettingsField SMTP] in E2.
  destruct (storeSlice zeroSmtp storeSmtp SNil (JArr blocks)) as [sl|] eqn:Es;
    simpl in E2; [|discriminate].
  injection E2 as <-. simpl.
  destruct blocks as [|x blocks]; simpl in Es.
  - injection Es as <-. exists []. split; [reflexivity | constructor].
  - destruct (storeSmtp zeroSmtp x) as [b|] eqn:Eb; simpl in Es; [|discriminate].
    destruct (arrayLoop_fresh _ zeroSmtp storeSmtp blocks [b]
                (repeat zeroSmtp (growCap 0 - 0 - 1)) sl) as (l & El & Fl).
    + apply Forall_forall. intros y Hy. apply repeat_spec in Hy. exact Hy.
    + exact Es.
    + destruct sl as [|es sp]; simpl in El; [discriminate|].
      exists sp. simpl. split; [reflexivity|]. subst es.
      constructor; assumption.
Qed.

Lemma blocks_omitted (blocks : list json) (l : list smtpBlock) :
  Forall2 (fun x b => storeSmtp zeroSmtp x = Some b) blocks l ->
  Forall2 (fun x b =>
             forall bms g,
               x = JObj bms ->
               omits smtpFields smtpFieldName g bms ->
               member (smtpFieldName g) b = Some (smtpZeroJSON g))
          blocks (map encodeSmtp l).
Proof.
  induction 1 as [|x b xs bs0 Hx _ IH]; simpl; constructor; [|exact IH].
  intros bms g -> Ho. exact (storeSmtp_omitted bms g b Hx Ho).
Qed.

(** C10: the blob a successful update stores is the re-encoding of the
    decoded body, whatever was stored before; a field that no member of the
    body selects is stored as its zero value (the S3 secret key among
    them), and so is a field that a block of the body's SMTP array omits
    (the password among them). *)
Theorem C10_persisted_is_reencoding (e : env) (req : body) (st : state)
    (s : settings) :
  decodeBody req = Some s ->
  enabledBlocks s <> 0%nat ->
  execErr e = None ->
  let st' := snd (run (handleUpdateSettings e req) st) in
  stored st' = encodeSettings s /\
  (forall ms f,
     req = Body (JObj ms) ->
     omits settingsFields settingsFieldName f ms ->
     member (settingsFieldName f) (stored st') = Some (zeroJSON f)) /\
  (forall ms1 k blocks ms2,
     req = Body (JObj (ms1 ++ (k, JArr blocks) :: ms2)) ->
     findField settingsFields settingsFieldName k = Some fSMTP ->
     omits settingsFields settingsFieldName fSMTP ms1 ->
     omits settingsFields settingsFieldName fSMTP ms2 ->
     exists bs,
       member "smtp" (stored st') = Some (JArr bs) /\
       Forall2 (fun x b =>
                  forall bms g,
                    x = JObj bms ->
                    omits smtpFields smtpFieldName g bms ->
                    member (smtpFieldName g) b = Some (smtpZeroJSON g))
               blocks bs).
Proof.
  intros Hdec Hen Hex. cbv zeta.
  assert (Hst : stored (snd (run (handleUpdateSettings e req) st)) =
                encodeSettings s).
  { rewrite update_run, Hdec. cbv zeta.
    destruct (hasEnabled (elems (SMTP s))) eqn:E.
    - rewrite Hex. destruct (hasRunningCampaigns e); reflexivity.
    - apply hasEnabled_false in E. contradiction. }
  rewrite Hst. split; [reflexivity|]. split.
  - intros ms f -> Ho. simpl in Hdec. exact (Unmarshal_omitted ms f s Hdec Ho).
  - intros ms1 k blocks ms2 -> Hk Ho1 Ho2. simpl in Hdec.
    destruct (Unmarshal_single_smtp ms1 ms2 k blocks s Hdec Hk Ho1 Ho2)
      as (sp & Esl & F2).
    exists (map encodeSmtp (elems (SMTP s))). split.
    + destruct s. simpl in Esl |- *. rewrite Esl. reflexivity.
    + exact (blocks_omitted blocks (elems (SMTP s)) F2).
Qed.


(** * Further properties of the handlers *)

Lemma get_stored (e : env) (st : state) :
  stored (snd (run (handleGetSettings e) st)) = stored st.
Proof.
  rewrite get_run. destruct (getErr e); [reflexivity|].
  cbv zeta. destruct (Unmarshal (stored st)); reflexivity.
Qed.

(** The read handler changes neither the stored document nor the flag nor
    the goroutines, whatever the database answers; a read after it answers
    what it would have answered before. *)
Theorem read_keeps_state (e e' : env) (st : state) :
  stored (snd (run (handleGetSettings e) st)) = stored st /\
  needsRestart (snd (run (handleGetSettings e) st)) = needsRestart st /\
  goroutines (snd (run (handleGetSettings e) st)) = goroutines st /\
  fst (run (handleGetSettings e') (snd (run (handleGetSettings e) st))) =
    fst (run (handleGetSettings e') st).
Proof.
  assert (H : stored (snd (run (handleGetSettings e) st)) = stored st /\
              needsRestart (snd (run (handleGetSettings e) st)) = needsRestart st /\
              goroutines (snd (run (handleGetSettings e) st)) = goroutines st).
  { rewrite get_run. destruct (getErr e); [simpl; auto|].
    cbv zeta. destruct (Unmarshal (stored st)); simpl; auto. }
  destruct H as (H1 & H2 & H3). repeat split; try assumption.
  rewrite (get_run e' (snd (run (handleGetSettings e) st))), H1, (get_run e' st).
  destruct (getErr e'); [reflexivity|].
  cbv zeta. destruct (Unmarshal (stored st)); reflexivity.
Qed.


(** The validation loop answers true exactly when some block of the list
    is enabled. *)
Theorem hasEnabled_exists (l : list smtpBlock) :
  hasEnabled l = true <-> exists b, In b l /\ Enabled b = true.
Proof.
  induction l as [|b r IH]; simpl.
  - split; [discriminate | intros (b & [] & _)].
  - destruct (Enabled b) eqn:E.
    + split; [|reflexivity]. intros _. exists b. split; [left; reflexivity | exact E].
    + rewrite IH. split.
      * intros (b' & Hin & Hb). exists b'. split; [right; exact Hin | exact Hb].
      * intros (b' & [<- | Hin] & Hb); [congruence|].
        exists b'. split; assumption.
Qed.

(** The update handler never looks at the state: its response is the same
    from any two states, and either it stores the same blob from both or it
    leaves both stored documents as they were. *)
Theorem update_ignores_state (e : env) (req : body) (st1 st2 : state) :
  fst (run (handleUpdateSettings e req) st1) =
    fst (run (handleUpdateSettings e req) st2) /\
  if succeeded (fst (run (handleUpdateSettings e req) st1))
  then stored (snd (run (handleUpdateSettings e req) st1)) =
       stored (snd (run (handleUpdateSettings e req) st2))
  else stored (snd (run (handleUpdateSettings e req) st1)) = stored st1 /\
       stored (snd (run (handleUpdateSettings e req) st2)) = stored st2.
Proof.
  rewrite !update_run.
  destruct (decodeBody req) as [s|]; cbv zeta; [|simpl; auto].
  destruct (hasEnabled (elems (SMTP s))); [|simpl; auto].
  destruct (execErr e); [simpl; auto|].
  destruct (hasRunningCampaigns e); simpl; auto.
Qed.

(** What an update adds to the call log: the lock is released as often as
    it is taken, the store is called at most once, the campaign manager is
    asked exactly when the update succeeds, and the lock is taken only when
    the flag ends up set. *)
Theorem update_call_discipline (e : env) (req : body) (st : state) :
  exists new,
    calls (snd (run (handleUpdateSettings e req) st)) = (calls st ++ new)%list /\
    List.length (filter isLock new) = List.length (filter isUnlock new) /\
    (List.length (filter isExec new) <= 1)%nat /\
    existsb isProbe new = succeeded (fst (run (handleUpdateSettings e req) st)) /\
    implb (existsb isLock new)
          (needsRestart (snd (run (handleUpdateSettings e req) st))) = true.
Proof.
  rewrite update_run.
  destruct (decodeBody req) as [s|]; cbv zeta.
  - destruct (hasEnabled (elems (SMTP s))).
    + destruct (execErr e); [|destruct (hasRunningCampaigns e)]; simpl;
        eexists; (split; [reflexivity|]); simpl; repeat split; lia.
    + simpl. eexists. split; [reflexivity|]. simpl. repeat split; lia.
  - simpl. eexists. split; [reflexivity|]. simpl. repeat split; lia.
Qed.

(** An update that fails is not seen by a later read. *)
Theorem failed_update_then_read (e e' : env) (req : body) (st : state)
    (k : failure) :
  fails (fst (run (handleUpdateSettings e req) st)) k ->
  fst (run (handleGetSettings e') (snd (run (handleUpdateSettings e req) st))) =
    fst (run (handleGetSettings e') st).
Proof.
  intros H.
  assert (Hs : stored (snd (run (handleUpdateSettings e req) st)) = stored st).
  { revert H. rewrite update_run.
    destruct (decodeBody req) as [s|]; cbv zeta; [|reflexivity].
    destruct (hasEnabled (elems (SMTP s))); [|reflexivity].
    destruct (execErr e); [reflexivity|].
    destruct (hasRunningCampaigns e); simpl; intros H; inversion H. }
  rewrite (get_run e' (snd (run (handleUpdateSettings e req) st))), Hs,
    (get_run e' st).
  destruct (getErr e'); [reflexivity|].
  cbv zeta. destruct (Unmarshal (stored st)); reflexivity.
Qed.

Lemma serve_goroutines (r : request) (st : state) :
  goroutines (snd (serve r st)) =
  (goroutines st ++ if reloadScheduled r then [reloadTask] else [])%list.
Proof.
  destruct r as [e|e req]; simpl.
  - rewrite get_run, app_nil_r. destruct (getErr e); [reflexivity|].
    cbv zeta. destruct (Unmarshal (stored st)); reflexivity.
  - rewrite update_run.
    destruct (decodeBody req) as [s|]; cbv zeta;
      [|simpl; rewrite app_nil_r; reflexivity].
    unfold enabledBlocks. rewrite <- hasEnabled_filter.
    destruct (hasEnabled (elems (SMTP s)));
      [|destruct (execErr e); simpl; rewrite app_nil_r; reflexivity].
    destruct (execErr e); [simpl; rewrite app_nil_r; reflexivity|].
    destruct (hasRunningCampaigns e); simpl; [rewrite app_nil_r|]; reflexivity.
Qed.

(** Reload goroutines pile up: after any sequence of requests, one more
    reload goroutine is pending for every update that succeeded while no
    campaign was running; none is ever dropped or merged. *)
Theorem reloads_accumulate (rs : list request) (st : state) :
  goroutines (serveAll rs st) =
  (goroutines st ++
   repeat reloadTask (List.length (filter reloadScheduled rs)))%list.
Proof.
  revert st. induction rs as [|r rs IH]; intros st; simpl.
  - rewrite app_nil_r. reflexivity.
  - rewrite IH, serve_goroutines, <- app_assoc.
    destruct (reloadScheduled r); reflexivity.
Qed.

Lemma Unmarshal_omits_SMTP (ms : list (string * json)) (s : settings) :
  Unmarshal (JObj ms) = Some s ->
  omits settingsFields settingsFieldName fSMTP ms ->
  SMTP s = SNil.
Proof.
  intros E Ho.
  apply (objectLoop_inv_except _ _ settingsFields settingsFieldName
           storeSettingsField fSMTP (fun s => SMTP s = SNil))
    with (ms := ms) (s := zeroSettings); [| exact Ho | reflexivity | exact E].
  intros g x s0 s' Hne Hz E0.
  rewrite (storeSettingsField_keeps_SMTP g x s0 s' Hne E0). exact Hz.
Qed.

(** A body that decodes and none of whose keys selects the SMTP list, or
    the body null, is rejected by validation whatever else it holds, and
    nothing is stored. *)
Theorem missing_smtp_rejected (e : env) (req : body) (st : state) :
  decodeBody req <> None ->
  req = Body JNull \/
  (exists ms, req = Body (JObj ms) /\
              omits settingsFields settingsFieldName fSMTP ms) ->
  fst (run (handleUpdateSettings e req) st) =
    HTTPError StatusBadRequest "At least one SMTP block should be enabled" /\
  stored (snd (run (handleUpdateSettings e req) st)) = stored st.
Proof.
  intros Hd Hreq. rewrite update_run.
  destruct (decodeBody req) as [s|] eqn:E; [|contradiction]. cbv zeta.
  assert (Hn : SMTP s = SNil).
  { destruct Hreq as [-> | (ms & -> & Ho)].
    - simpl in E. injection E as <-. reflexivity.
    - exact (Unmarshal_omits_SMTP ms s E Ho). }
  rewrite Hn. simpl. split; reflexivity.
Qed.

(** A member whose key selects no field is dropped, whatever its value:
    the update runs as if the member were not there. *)
Theorem unknown_key_dropped (e : env) (st : state) (k : string) (x : json)
    (ms1 ms2 : list (string * json)) :
  findField settingsFields settingsFieldName k = None ->
  run (handleUpdateSettings e (Body (JObj (ms1 ++ (k, x) :: ms2)))) st =
  run (handleUpdateSettings e (Body (JObj (ms1 ++ ms2)))) st.
Proof.
  intros Hk.
  assert (Hd : decodeBody (Body (JObj (ms1 ++ (k, x) :: ms2))) =
               decodeBody (Body (JObj (ms1 ++ ms2)))).
  { unfold decodeBody, Unmarshal, storeSettings, storeStruct.
    rewrite !objectLoop_app.
    destruct (objectLoop settingsFields settingsFieldName storeSettingsField
                ms1 zeroSettings) as [s1|]; simpl; [|reflexivity].
    rewrite Hk. reflexivity. }
  rewrite !update_run, Hd. reflexivity.
Qed.

(** ** Updates and reads of what was stored *)

Lemma encodeSlice_elems {A} (enc : A -> json) (sl1 sl : slice A) :
  encodeSlice enc sl1 = encodeSlice enc sl ->
  map enc (elems sl1) = map enc (elems sl).
Proof.
  destruct sl1, sl; simpl; intros H; try discriminate; [reflexivity|].
  injection H as H. exact H.
Qed.

Lemma encodeSettings_SMTP (s1 s : settings) :
  encodeSettings s1 = encodeSettings s ->
  encodeSlice encodeSmtp (SMTP s1) = encodeSlice encodeSmtp (SMTP s).
Proof.
  destruct s1, s. unfold encodeSettings. settings_projections.
  intros H. injection H. intros. assumption.
Qed.

Lemma encodeSmtp_Enabled (b1 b : smtpBlock) :
  encodeSmtp b1 = encodeSmtp b -> Enabled b1 = Enabled b.
Proof.
  destruct b1, b. unfold encodeSmtp, encodeBool.
  cbn [Enabled Host HelloHostname Port AuthProtocol Username Password
       EmailHeaders MaxConns MaxMsgRetries IdleTimeout WaitTimeout
       TLSEnabled TLSSkipVerify].
  intros H. injection H. intros. assumption.
Qed.

Lemma hasEnabled_encoded (l1 l : list smtpBlock) :
  map encodeSmtp l1 = map encodeSmtp l -> hasEnabled l1 = hasEnabled l.
Proof.
  revert l. induction l1 as [|b1 l1 IH]; intros [|b l]; simpl; intros H;
    try discriminate; [reflexivity|].
  pose proof (f_equal (hd JNull) H) as Hb.
  pose proof (f_equal (@tl json) H) as Hl. simpl in Hb, Hl.
  rewrite (encodeSmtp_Enabled _ _ Hb), (IH _ Hl).
  reflexivity.
Qed.

Lemma hasEnabled_same_encoding (s1 s : settings) :
  encodeSettings s1 = encodeSettings s ->
  hasEnabled (elems (SMTP s1)) = hasEnabled (elems (SMTP s)).
Proof.
  intros H. apply hasEnabled_encoded, encodeSlice_elems, encodeSettings_SMTP.
  exact H.
Qed.

Lemma enabledBlocks_hasEnabled (s : settings) :
  enabledBlocks s <> 0%nat <-> hasEnabled (elems (SMTP s)) = true.
Proof.
  rewrite <- hasEnabled_false.
  destruct (hasEnabled (elems (SMTP s))); split; congruence.
Qed.

Lemma update_success (e : env) (req : body) (st : state) (s : settings) :
  decodeBody req = Some s ->
  hasEnabled (elems (SMTP s)) = true ->
  execErr e = None ->
  stored (snd (run (handleUpdateSettings e req) st)) = encodeSettings s /\
  succeeded (fst (run (handleUpdateSettings e req) st)) = true.
Proof.
  intros Hd Hh Hx. rewrite update_run, Hd. cbv zeta. rewrite Hh, Hx.
  destruct (hasRunningCampaigns e); split; reflexivity.
Qed.

Lemma decodeBody_wf (req : body) (s : settings) :
  decodeBody req = Some s -> wfSettings s.
Proof.
  destruct req as [|j]; simpl; [discriminate | apply Unmarshal_wf].
Qed.

(** The document an update stored is accepted again: sending the stored
    blob as the body of another update succeeds and stores the same blob. *)
Theorem resubmit_stored (e e' : env) (req : body) (st : state) (s : settings) :
  decodeBody req = Some s ->
  enabledBlocks s <> 0%nat ->
  execErr e = None ->
  execErr e' = None ->
  let st' := snd (run (handleUpdateSettings e req) st) in
  succeeded (fst (run (handleUpdateSettings e' (Body (stored st'))) st')) = true /\
  stored (snd (run (handleUpdateSettings e' (Body (stored st'))) st')) =
    stored st'.
Proof.
  intros Hd Hen Hx Hx'. cbv zeta.
  apply enabledBlocks_hasEnabled in Hen.
  destruct (update_success e req st s Hd Hen Hx) as (Hst & _).
  rewrite Hst.
  destruct (Unmarshal_encodeSettings s (decodeBody_wf _ _ Hd)) as (s1 & E1 & M1).
  destruct (update_success e' (Body (encodeSettings s))
              (snd (run (handleUpdateSettings e req) st)) s1 E1) as (H1 & H2).
  { rewrite (hasEnabled_same_encoding _ _ M1). exact Hen. }
  { exact Hx'. }
  split; [exact H2 | rewrite H1; exact M1].
Qed.

Lemma serve_storedValid (r : request) (st : state) :
  storedValid st -> storedValid (snd (serve r st)).
Proof.
  intros Hv. destruct r as [e|e req]; simpl.
  - unfold storedValid. rewrite get_stored. exact Hv.
  - destruct (decodeBody req) as [s|] eqn:Hd.
    + destruct (hasEnabled (elems (SMTP s))) eqn:Hh.
      * destruct (execErr e) as [err|] eqn:Hx.
        -- unfold storedValid. rewrite update_run, Hd. cbv zeta.
           rewrite Hh, Hx. exact Hv.
        -- destruct (update_success e req st s Hd Hh Hx) as (Hst & _).
           destruct (Unmarshal_encodeSettings s (decodeBody_wf _ _ Hd))
             as (s1 & E1 & M1).
           exists s1. rewrite Hst. split; [exact E1|].
           apply enabledBlocks_hasEnabled.
           rewrite (hasEnabled_same_encoding _ _ M1). exact Hh.
      * unfold storedValid. rewrite update_run, Hd. cbv zeta. rewrite Hh.
        exact Hv.
    + unfold storedValid. rewrite update_run, Hd. exact Hv.
Qed.

(** Validation keeps the stored document valid: when the stored document
    decodes and has an enabled block, it still does after any sequence of
    reads and updates, failed or not. *)
Theorem stored_valid_invariant (rs : list request) (st : state) :
  storedValid st -> storedValid (serveAll rs st).
Proof.
  revert st. induction rs as [|r rs IH]; intros st Hv; simpl; [exact Hv|].
  apply IH, serve_storedValid. exact Hv.
Qed.

Lemma set_Password_encode (b1 b : smtpBlock) :
  encodeSmtp b1 = encodeSmtp b ->
  encodeSmtp (set_Password "" b1) = encodeSmtp (set_Password "" b).
Proof.
  destruct b1, b. unfold encodeSmtp, set_Password.
  cbn [Enabled Host HelloHostname Port AuthProtocol Username Password
       EmailHeaders MaxConns MaxMsgRetries IdleTimeout WaitTimeout
       TLSEnabled TLSSkipVerify].
  intros H. injection H. intros. congruence.
Qed.

Lemma clearPasswords_encode (sl1 sl : slice smtpBlock) :
  encodeSlice encodeSmtp sl1 = encodeSlice encodeSmtp sl ->
  encodeSlice encodeSmtp (clearPasswords sl1) =
  encodeSlice encodeSmtp (clearPasswords sl).
Proof.
  destruct sl1 as [|es1 sp1], sl as [|es sp]; simpl; intros H;
    try discriminate; [reflexivity|].
  injection H as H. f_equal.
  pose proof (clearPasswords_elems (SMk es1 sp1)) as E1.
  pose proof (clearPasswords_elems (SMk es sp)) as E2.
  simpl in E1, E2. rewrite E1, E2. clear E1 E2.
  revert es H. induction es1 as [|b1 es1 IH]; intros [|b es]; simpl;
    intros H; try discriminate; [reflexivity|].
  pose proof (f_equal (hd JNull) H) as Hb.
  pose proof (f_equal (@tl json) H) as Hl. simpl in Hb, Hl.
  rewrite (set_Password_encode _ _ Hb), (IH _ Hl). reflexivity.
Qed.

Ltac settings_projections_in H :=
  cbn [AppRootURL AppLogoURL AppFaviconURL AppFromEmail AppNotifyEmails
       AppBatchSize AppConcurrency AppMaxSendErrors AppMessageRate Messengers
       PrivacyAllowBlacklist PrivacyAllowExport PrivacyAllowWipe
       PrivacyExportable SMTP UploadProvider UploadFilesystemUploadPath
       UploadFilesystemUploadURI UploadS3AwsAccessKeyID
       UploadS3AwsDefaultRegion UploadS3AwsSecretAccessKey UploadS3Bucket
       UploadS3BucketDomain UploadS3BucketPath UploadS3BucketType
       UploadS3Expiry] in H.

Lemma scrub_encode (s1 s : settings) :
  encodeSettings s1 = encodeSettings s ->
  encodeSettings (scrub s1) = encodeSettings (scrub s).
Proof.
  intros H. pose proof (encodeSettings_SMTP _ _ H) as Hs.
  apply clearPasswords_encode in Hs.
  destruct s1, s. unfold scrub, encodeSettings in *.
  settings_projections_in H. settings_projections_in Hs.
  cbn [set_SMTP set_UploadS3AwsSecretAccessKey]. settings_projections.
  injection H. intros. rewrite Hs. congruence.
Qed.

(** A read after a successful update returns the document of the update
    with its secrets blanked: what the read sends encodes to the same JSON
    as the decoded body with every password and the S3 secret key
    emptied. *)
Theorem read_after_update (e e' : env) (req : body) (st : state) (s : settings) :
  decodeBody req = Some s ->
  enabledBlocks s <> 0%nat ->
  execErr e = None ->
  getErr e' = None ->
  exists s',
    fst (run (handleGetSettings e') (snd (run (handleUpdateSettings e req) st))) =
      JSON StatusOK (OkSettings s') /\
    encodeSettings s' = encodeSettings (scrub s).
Proof.
  intros Hd Hen Hx Hg.
  apply enabledBlocks_hasEnabled in Hen.
  destruct (update_success e req st s Hd Hen Hx) as (Hst & _).
  destruct (Unmarshal_encodeSettings s (decodeBody_wf _ _ Hd)) as (s1 & E1 & M1).
  exists (scrub s1). split.
  - rewrite get_run, Hg, Hst. cbv zeta. rewrite E1. reflexivity.
  - apply scrub_encode. exact M1.
Qed.


Lemma wfSettings_scrub (s : settings) : wfSettings s -> wfSettings (scrub s).
Proof.
  destruct s. unfold wfSettings, scrub. simpl.
  intros (H1 & H2 & H3 & H4 & H5 & Hm & Hs). repeat split; try assumption.
  destruct SMTP0 as [|es sp]; simpl in *; [constructor|].
  pose proof (clearPasswordsFrom_map [] es) as E. simpl in E. rewrite E.
  apply Forall_app in Hs. destruct Hs as (He & Hp).
  apply Forall_app. split; [|exact Hp].
  clear Hp E. induction He as [|b l Hb _ IH]; simpl; [constructor|].
  constructor; [|exact IH].
  destruct b. exact Hb.
Qed.

Lemma hasEnabled_clear (l : list smtpBlock) :
  hasEnabled (map (set_Password "") l) = hasEnabled l.
Proof.
  induction l as [|b l IH]; simpl; [reflexivity|].
  rewrite IH. destruct b; reflexivity.
Qed.

Lemma password_cleared (l : list smtpBlock) :
  Forall (fun b => member "password" b = Some (JStr ""))
         (map encodeSmtp (map (set_Password "") l)).
Proof.
  induction l as [|b l IH]; simpl; constructor; [|exact IH].
  destruct b; reflexivity.
Qed.

(** Sending back what a read returned erases the secrets: when the
    document [s] a read returned has an enabled block and is sent as the
    body of an update that the store accepts, the stored blob has an empty
    S3 secret key and an empty password in every SMTP block. *)
Theorem get_then_put_erases_secrets (e1 e2 : env) (st : state) (code : Z)
    (s : settings) :
  fst (run (handleGetSettings e1) st) = JSON code (OkSettings s) ->
  enabledBlocks s <> 0%nat ->
  execErr e2 = None ->
  let st' :=
    snd (run (handleUpdateSettings e2 (Body (encodeSettings s)))
             (snd (run (handleGetSettings e1) st))) in
  member "upload.s3.aws_secret_access_key" (stored st') = Some (JStr "") /\
  exists bs,
    member "smtp" (stored st') = Some (JArr bs) /\
    List.length bs = List.length (elems (SMTP s)) /\
    Forall (fun b => member "password" b = Some (JStr "")) bs.
Proof.
  intros Hr Hen Hx. cbv zeta.
  rewrite get_run in Hr. destruct (getErr e1); [discriminate|].
  cbv zeta in Hr.
  destruct (Unmarshal (stored st)) as [s0|] eqn:E0; [|discriminate].
  simpl in Hr. injection Hr as _ Hs.
  change (scrub s0 = s) in Hs. subst s.
  pose proof (wfSettings_scrub _ (Unmarshal_wf _ _ E0)) as W.
  destruct (Unmarshal_encodeSettings _ W) as (s1 & E1 & M1).
  apply enabledBlocks_hasEnabled in Hen.
  destruct (update_success e2 (Body (encodeSettings (scrub s0)))
              (snd (run (handleGetSettings e1) st)) s1 E1) as (Hst & _).
  { rewrite (hasEnabled_same_encoding _ _ M1). exact Hen. }
  { exact Hx. }
  rewrite Hst, M1. clear Hst M1 E1 W.
  destruct s0. unfold scrub in *. simpl in Hen.
  split; [reflexivity|].
  destruct SMTP0 as [|es sp]; simpl in Hen; [discriminate|].
  exists (map encodeSmtp (map (set_Password "") es)).
  cbn [set_SMTP set_UploadS3AwsSecretAccessKey SMTP clearPasswords elems].
  pose proof (clearPasswordsFrom_map [] es) as E. simpl in E. rewrite E.
  split; [reflexivity|]. split; [rewrite !length_map; reflexivity|].
  apply password_cleared.
Qed.


(** A member that selects a field and holds a value the field cannot take
    makes [c.Bind] fail: the handler returns that error, calls nothing
    further and changes nothing. *)
Theorem ill_typed_field_rejected (e : env) (st : state) (k : string) (x : json)
    (f : settingsField) (ms1 ms2 : list (string * json)) :
  findField settingsFields settingsFieldName k = Some f ->
  (forall s, storeSettingsField f x s = None) ->
  run (handleUpdateSettings e (Body (JObj (ms1 ++ (k, x) :: ms2)))) st =
  (BindError,
   mkState (stored st) (needsRestart st) (goroutines st)
           (calls st ++ [CallBind])).
Proof.
  intros Hk Hx. rewrite update_run.
  assert (Hd : decodeBody (Body (JObj (ms1 ++ (k, x) :: ms2))) = None).
  { unfold decodeBody, Unmarshal, storeSettings, storeStruct.
    rewrite objectLoop_app.
    destruct (objectLoop settingsFields settingsFieldName storeSettingsField
                ms1 zeroSettings) as [s1|]; simpl; [|reflexivity].
    rewrite Hk, Hx. reflexivity. }
  rewrite Hd. reflexivity.
Qed.

Lemma serve_stored (r : request) (st : state) :
  stored (snd (serve r st)) = stored st \/
  exists e j, r = PutRequest e (Body j) /\
              sanitize j = Some (stored (snd (serve r st))).
Proof.
  destruct r as [e|e req]; simpl.
  - left. apply get_stored.
  - rewrite update_run.
    destruct (decodeBody req) as [s|] eqn:Hd; cbv zeta; [|left; reflexivity].
    destruct (hasEnabled (elems (SMTP s))); [|left; reflexivity].
    destruct (execErr e); [left; reflexivity|].
    right. destruct req as [|j]; [discriminate|]. simpl in Hd.
    exists e, j. split; [reflexivity|].
    unfold sanitize, Marshal. rewrite Hd.
    destruct (hasRunningCampaigns e); reflexivity.
Qed.

(** The handlers store nothing of their own making: after any sequence of
    requests the stored document is the one from before, or the sanitized
    body of an update of the sequence. *)
Theorem stored_provenance (rs : list request) (st : state) :
  stored (serveAll rs st) = stored st \/
  exists e j, In (PutRequest e (Body j)) rs /\
              sanitize j = Some (stored (serveAll rs st)).
Proof.
  revert st. induction rs as [|r rs IH]; intros st; simpl; [left; reflexivity|].
  destruct (IH (snd (serve r st))) as [H | (e & j & Hin & Hs)].
  - rewrite H. destruct (serve_stored r st) as [H' | (e & j & -> & Hs)].
    + left. exact H'.
    + right. exists e, j. split; [left; reflexivity | exact Hs].
  - right. exists e, j. split; [right; exact Hin | exact Hs].
Qed.


End Codec.

Arguments INil {float64}.
Arguments IBool {float64} b.
Arguments IString {float64} s.
Arguments OkNeedsRestart {float64} b.
Arguments OkTrue {float64}.
Arguments HTTPError {float64} code message.
Arguments BindError {float64}.

(** * The properties at the sample requests *)

Import Sample.

Local Notation "'handlePut'" :=
  (handleUpdateSettings parseFloat formatFloat pqErrMsg).
Local Notation "'handleGet'" :=
  (handleGetSettings parseFloat pqErrMsg unmarshalErr).

(** Keys are matched without regard to case, never across fields. *)
Example fold_upper : Fold.foldFunc "smtp" "SMTP" = true.
Proof. reflexivity. Qed.

Example fold_mixed : Fold.foldFunc "app.root_url" "App.Root_URL" = true.
Proof. reflexivity. Qed.

Example fold_other : Fold.foldFunc "host" "port" = false.
Proof. reflexivity. Qed.

(** An integer field takes an integer literal only. *)
Example bind_rejects_fraction :
  Unmarshal parseFloat (JObj [("app.batch_size", JNum (NReal "1.5"))]) = None.
Proof. reflexivity. Qed.

(** null leaves a string as it is, and a key may differ in case. *)
Example null_keeps_value :
  option_map (@UploadProvider float64)
    (Unmarshal parseFloat
       (JObj [("upload.provider", JStr "s3"); ("Upload.Provider", JNull)])) =
  Some "s3".
Proof. reflexivity. Qed.

(** A repeated key decodes into the slice already there: the block keeps
    the host of the first array. *)
Example repeated_key_reuses_block :
  option_map (fun s => map (fun b => (Enabled b, Host b)) (elems (SMTP s)))
    (Unmarshal parseFloat
       (JObj [("smtp", JArr [JObj [("host", JStr "a")]]);
              ("smtp", JArr [JObj [("enabled", JBool true)]])])) =
  Some [(true, "a")].
Proof. reflexivity. Qed.

(** Scenario C: activity is reported; scenario B: it is not. *)
Lemma C1_witness :
  exists s b,
    decodeBody parseFloat (Body scenarioB) = Some s /\
    Marshal formatFloat s = inr b /\
    stored (snd (run (handlePut busy (Body scenarioB)) st0)) = b /\
    needsRestart (snd (run (handlePut busy (Body scenarioB)) st0)) = true /\
    fst (run (handlePut busy (Body scenarioB)) st0) =
      JSON StatusOK (OkNeedsRestart true) /\
    goroutines (snd (run (handlePut busy (Body scenarioB)) st0)) = [] /\
    goroutines (snd (run (handlePut idle (Body scenarioB)) st0)) =
      [[After 500; Send SIGHUP]] /\
    fst (run (handlePut idle (Body scenarioB)) st0) = JSON StatusOK OkTrue /\
    needsRestart (snd (run (handlePut idle (Body scenarioB)) st0)) = false.
Proof.
  eexists. eexists.
  split; [reflexivity|]. split; [reflexivity|].
  destruct (C1_reload_decision _ parseFloat formatFloat pqErrMsg busy
              (Body scenarioB) st0 _ _ eq_refl eq_refl) as (Hs & Hb & _).
  { vm_compute. discriminate. }
  { reflexivity. }
  destruct (C1_reload_decision _ parseFloat formatFloat pqErrMsg idle
              (Body scenarioB) st0 _ _ eq_refl eq_refl) as (_ & _ & Hi).
  { vm_compute. discriminate. }
  { reflexivity. }
  destruct (Hb eq_refl) as (B1 & B2 & B3).
  destruct (Hi eq_refl) as (I1 & I2 & I3).
  repeat split; assumption.
Defined.

(** Reading back what scenario B wrote. *)
Lemma C2_witness :
  exists s,
    fst (run (handleGet idle) (mkState scenarioB false [] [])) =
      JSON StatusOK (OkSettings s) /\
    Forall (fun b => Password b = "") (elems (SMTP s)) /\
    UploadS3AwsSecretAccessKey s = "" /\
    map Host (elems (SMTP s)) = ["mx.example.com"].
Proof.
  eexists. split; [reflexivity|].
  destruct (C2_read_scrubs_secrets _ parseFloat pqErrMsg unmarshalErr idle
              (mkState scenarioB false [] []) _ _ eq_refl)
    as (s0 & _ & Hp & Hk & _).
  split; [exact Hp|]. split; [exact Hk | reflexivity].
Defined.

(** Scenario A fails validation and stores nothing. *)
Lemma C3_witness :
  exists s,
    decodeBody parseFloat (Body scenarioA) = Some s /\
    enabledBlocks s = 0%nat /\
    fails (fst (run (handlePut idle (Body scenarioA)) st0)) ValidationError /\
    stored (snd (run (handlePut idle (Body scenarioA)) st0)) = stored st0.
Proof.
  eexists. split; [reflexivity|]. split; [reflexivity|].
  destruct (C3_validation_iff _ parseFloat formatFloat pqErrMsg idle
              (Body scenarioA) st0 _ eq_refl) as (Hiff & Hst).
  split; [apply Hiff; reflexivity | apply Hst; reflexivity].
Defined.

(** Scenario D: the store fails. *)
Lemma C4_witness :
  fails (fst (run (handlePut dbDown (Body scenarioB)) st0)) StorageError /\
  stored (snd (run (handlePut dbDown (Body scenarioB)) st0)) = stored st0 /\
  needsRestart (snd (run (handlePut dbDown (Body scenarioB)) st0)) = false /\
  goroutines (snd (run (handlePut dbDown (Body scenarioB)) st0)) = [].
Proof.
  assert (H : fails (fst (run (handlePut dbDown (Body scenarioB)) st0))
                    StorageError).
  { vm_compute. apply (fails_storage _ "connection refused"). }
  split; [exact H|].
  exact (C4_failure_no_effect _ parseFloat formatFloat pqErrMsg dbDown
           (Body scenarioB) st0 StorageError H).
Defined.

(** Scenario A: validation fails after the document was re-encoded. *)
Lemma C5_counterexample :
  fails (fst (run (handlePut idle (Body scenarioA)) st0)) ValidationError /\
  In CallMarshal (calls (snd (run (handlePut idle (Body scenarioA)) st0))).
Proof.
  split.
  - vm_compute. apply fails_validation.
  - vm_compute. right. left. reflexivity.
Qed.

Lemma C5_witness :
  exists s,
    decodeBody parseFloat (Body scenarioA) = Some s /\
    calls (snd (run (handlePut idle (Body scenarioA)) st0)) =
      [CallBind; CallMarshal].
Proof.
  eexists. split; [reflexivity|].
  destruct (C5_marshal_before_validation _ parseFloat formatFloat pqErrMsg idle
              (Body scenarioA) st0 _ eq_refl) as (rest & Hc & Hz & _).
  destruct (Hz eq_refl) as (Hr & _).
  rewrite Hc, Hr. reflexivity.
Defined.

(** The canonical form of the sample document is its own canonical form. *)
Lemma C8_witness :
  exists y,
    sanitize parseFloat formatFloat scenarioE = Some y /\
    sanitize parseFloat formatFloat y = Some y.
Proof.
  eexists. split; [reflexivity|].
  apply (C8_sanitize_idempotent _ parseFloat formatFloat
           (fun f => eq_refl) scenarioE).
  reflexivity.
Defined.

(** Scenario A: the message is not the one the claim quotes. *)
Lemma C9_counterexample :
  fails (fst (run (handlePut idle (Body scenarioA)) st0)) ValidationError /\
  fst (run (handlePut idle (Body scenarioA)) st0) <>
    HTTPError StatusBadRequest "at least one SMTP block must be enabled".
Proof.
  split.
  - vm_compute. apply fails_validation.
  - vm_compute. discriminate.
Qed.

Lemma C9_witness :
  fails (fst (run (handlePut idle (Body scenarioA)) st0)) ValidationError /\
  fst (run (handlePut idle (Body scenarioA)) st0) =
    HTTPError StatusBadRequest "At least one SMTP block should be enabled".
Proof.
  assert (H : fails (fst (run (handlePut idle (Body scenarioA)) st0))
                    ValidationError).
  { vm_compute. apply fails_validation. }
  split; [exact H|].
  exact (C9_validation_message _ parseFloat formatFloat pqErrMsg idle
           (Body scenarioA) st0 H).
Defined.

(** Scenario B with a password in the store before: the S3 secret key,
    which the body omits, is stored empty, and so is the username, which
    the body's block omits. *)
Lemma C10_witness :
  let before :=
    mkState (JObj [("upload.s3.aws_secret_access_key", JStr "old")])
            false [] [] in
  let st' := snd (run (handlePut idle (Body scenarioB)) before) in
  member "upload.s3.aws_secret_access_key" (stored st') = Some (JStr "") /\
  exists b,
    member "smtp" (stored st') = Some (JArr [b]) /\
    member "username" b = Some (JStr "").
Proof.
  cbv zeta.
  destruct (C10_persisted_is_reencoding _ parseFloat formatFloat pqErrMsg idle
              (Body scenarioB)
              (mkState (JObj [("upload.s3.aws_secret_access_key", JStr "old")])
                       false [] [])
              _ eq_refl) as (_ & Hf & Hb).
  { vm_compute. discriminate. }
  { reflexivity. }
  split.
  - apply (Hf _ fUploadS3AwsSecretAccessKey eq_refl).
    repeat constructor; vm_compute; discriminate.
  - destruct (Hb [] "smtp" _ [] eq_refl eq_refl) as (bs & Hm & F2).
    { constructor. }
    { constructor. }
    inversion F2 as [|x b xs bs' Hx Hnil]; subst.
    inversion Hnil; subst.
    exists b. split; [exact Hm|].
    apply (Hx _ fUsername eq_refl).
    repeat constructor; vm_compute; discriminate.
Defined.

(** * The further properties at the sample requests *)

Lemma failed_update_then_read_witness :
  fails (fst (run (handlePut idle (Body scenarioA))
                  (mkState scenarioB false [] []))) ValidationError /\
  fst (run (handleGet idle)
           (snd (run (handlePut idle (Body scenarioA))
                     (mkState scenarioB false [] [])))) =
  fst (run (handleGet idle) (mkState scenarioB false [] [])).
Proof.
  assert (H : fails (fst (run (handlePut idle (Body scenarioA))
                              (mkState scenarioB false [] []))) ValidationError).
  { vm_compute. apply fails_validation. }
  split; [exact H|].
  exact (failed_update_then_read _ parseFloat formatFloat pqErrMsg unmarshalErr
           idle idle (Body scenarioA) (mkState scenarioB false [] [])
           ValidationError H).
Defined.

Lemma missing_smtp_rejected_witness :
  fst (run (handlePut idle (Body (JObj [("app.root_url", JStr "x")]))) st0) =
    HTTPError StatusBadRequest "At least one SMTP block should be enabled" /\
  stored (snd (run (handlePut idle (Body (JObj [("app.root_url", JStr "x")])))
                   st0)) = stored st0.
Proof.
  apply (missing_smtp_rejected _ parseFloat formatFloat pqErrMsg idle
           (Body (JObj [("app.root_url", JStr "x")])) st0).
  - vm_compute. discriminate.
  - right. exists [("app.root_url", JStr "x")]. split; [reflexivity|].
    repeat constructor. vm_compute. discriminate.
Defined.

Lemma unknown_key_dropped_witness :
  run (handlePut idle
         (Body (JObj ([("app.root_url", JStr "x")] ++
                      ("comment", JArr [JNum (NReal "1e999")]) ::
                      [("smtp", JArr [JObj [("enabled", JBool true)]])]))))
      st0 =
  run (handlePut idle
         (Body (JObj ([("app.root_url", JStr "x")] ++
                      [("smtp", JArr [JObj [("enabled", JBool true)]])]))))
      st0.
Proof.
  apply (unknown_key_dropped _ parseFloat formatFloat pqErrMsg idle st0
           "comment").
  reflexivity.
Defined.

Lemma resubmit_stored_witness :
  exists s,
    decodeBody parseFloat (Body scenarioE) = Some s /\
    stored (snd (run (handlePut busy
                        (Body (stored (snd (run (handlePut idle (Body scenarioE))
                                                st0)))))
                     (snd (run (handlePut idle (Body scenarioE)) st0)))) =
    stored (snd (run (handlePut idle (Body scenarioE)) st0)).
Proof.
  eexists. split; [reflexivity|].
  destruct (resubmit_stored _ parseFloat formatFloat (fun f => eq_refl) pqErrMsg
              idle busy (Body scenarioE) st0 _ eq_refl) as (_ & H).
  - vm_compute. discriminate.
  - reflexivity.
  - reflexivity.
  - exact H.
Defined.

Lemma stored_valid_invariant_witness :
  storedValid parseFloat (mkState scenarioB false [] []) /\
  storedValid parseFloat
    (serveAll parseFloat formatFloat pqErrMsg unmarshalErr
       [PutRequest idle (Body scenarioA); GetRequest dbDown;
        PutRequest busy (Body scenarioE); PutRequest dbDown (Body scenarioB)]
       (mkState scenarioB false [] [])).
Proof.
  assert (H : storedValid parseFloat (mkState scenarioB false [] [])).
  { eexists. split; [reflexivity|]. vm_compute. discriminate. }
  split; [exact H|].
  exact (stored_valid_invariant _ parseFloat formatFloat (fun f => eq_refl)
           pqErrMsg unmarshalErr _ _ H).
Defined.

Lemma read_after_update_witness :
  exists s s',
    decodeBody parseFloat (Body scenarioB) = Some s /\
    fst (run (handleGet idle) (snd (run (handlePut idle (Body scenarioB)) st0))) =
      JSON StatusOK (OkSettings s') /\
    encodeSettings formatFloat s' = encodeSettings formatFloat (scrub s).
Proof.
  eexists.
  destruct (read_after_update _ parseFloat formatFloat (fun f => eq_refl)
              pqErrMsg unmarshalErr idle idle (Body scenarioB) st0 _ eq_refl)
    as (s' & Hr & He).
  - vm_compute. discriminate.
  - reflexivity.
  - reflexivity.
  - exists s'. split; [reflexivity|]. split; assumption.
Defined.

Lemma get_then_put_erases_secrets_witness :
  exists s,
    fst (run (handleGet idle) (mkState scenarioB false [] [])) =
      JSON StatusOK (OkSettings s) /\
    member "upload.s3.aws_secret_access_key"
      (stored (snd (run (handlePut idle (Body (encodeSettings formatFloat s)))
                        (snd (run (handleGet idle)
                                  (mkState scenarioB false [] [])))))) =
    Some (JStr "").
Proof.
  eexists. split; [reflexivity|].
  destruct (get_then_put_erases_secrets _ parseFloat formatFloat
              (fun f => eq_refl) pqErrMsg unmarshalErr idle idle
              (mkState scenarioB false [] []) _ _ eq_refl) as (H & _).
  - vm_compute. discriminate.
  - reflexivity.
  - exact H.
Defined.

Lemma ill_typed_field_rejected_witness :
  run (handlePut idle
         (Body (JObj ([("smtp", JArr [JObj [("enabled", JBool true)]])] ++
                      ("App.Batch_Size", JStr "many") :: []))))
      (mkState scenarioB true [] []) =
  (BindError, mkState scenarioB true [] [CallBind]).
Proof.
  apply (ill_typed_field_rejected _ parseFloat formatFloat pqErrMsg idle
           (mkState scenarioB true [] []) "App.Batch_Size" (JStr "many")
           fAppBatchSize).
  - reflexivity.
  - intros s. reflexivity.
Defined.
